(** * civitrack: the TC009 browser scenario

    A shallow embedding of [run_test] from

      testsprite_tests/TC009_Nearby_Issue_Queries_with_Spatial_Indexing_Performance.py

    The script drives a browser through the Playwright API.  Every call
    into the driver may return or raise; what it does is decided by the
    browser and the application under test, so the embedding takes the
    driver as a [world]: an oracle that, from the history of events so
    far, says whether a call raises, which pages the context holds, which
    frames a page has and what a navigation returns.  The script itself is
    written in a small state-and-exception monad whose state holds the
    three names that the [finally] block inspects ([pw], [browser],
    [context]) and the trace of events.  *)

From Stdlib Require Import List String ZArith QArith Bool Lia Sorted.
Import ListNotations.
Open Scope string_scope.
Open Scope Z_scope.
Open Scope list_scope.

(** ** Exceptions *)

(** The exceptions that can travel through [run_test].  Playwright's
    [TimeoutError] is a subclass of its [Error]; the readiness waits catch
    [async_api.Error], hence both. *)
Inductive exn : Type :=
| TimeoutError                      (* async_api.TimeoutError *)
| Error (msg : string)              (* async_api.Error, not a timeout *)
| AssertionError (msg : string)
| IndexError                        (* context.pages[-1] on an empty list *)
| OtherException (name : string).   (* CancelledError, KeyboardInterrupt, ... *)

Definition is_async_api_Error (e : exn) : bool :=
  match e with
  | TimeoutError | Error _ => true
  | _ => false
  end.

(** ** Driver objects and calls *)

Definition page := nat.
Definition frame := nat.

(** [wait_for_load_state] is called on the page and on each of its frames. *)
Inductive target : Type :=
| on_page (p : page)
| on_frame (f : frame).

(** [frame.locator(xpath).nth(n)]: a lazy query, bound to the page it was
    built from; nothing is resolved until an action uses it. *)
Record locator : Type := Locator {
  loc_page : page;
  loc_selector : string;
  loc_nth : Z
}.

Inductive call : Type :=
| c_start                                             (* async_playwright().start() *)
| c_launch (headless : bool) (args : list string)     (* pw.chromium.launch(...) *)
| c_new_context                                       (* browser.new_context() *)
| c_set_default_timeout (ms : Z)                      (* context.set_default_timeout(ms) *)
| c_new_page                                          (* context.new_page() *)
| c_goto (p : page) (url : string) (wait_until : option string) (timeout : Z)
| c_wait_for_load_state (t : target) (state : string) (timeout : Z)
| c_wait_for_timeout (p : page) (ms : Z)
| c_click (l : locator) (timeout : Z)
| c_sleep (seconds : Z)                               (* asyncio.sleep(seconds) *)
| c_context_close                                     (* context.close() *)
| c_browser_close                                     (* browser.close() *)
| c_stop.                                             (* pw.stop() *)

(** What the run leaves behind: the calls it made, each with the exception
    it raised if any, and the reads of [context.pages] and [page.frames]
    with the lists they produced. *)
Inductive event : Type :=
| Called (c : call) (r : option exn)
| ReadPages (ps : list page)
| ReadFrames (p : page) (fs : list frame).

Definition history := list event.

(** ** What the endpoint returns *)

(** What a navigation to the endpoint brings back, in the shape the
    specification gives to a QueryResult: the issues, and the time the
    request took.  The script has no type for it; it only receives
    whatever [page.goto] returns. *)
Record Issue : Type := {
  issue_id : Z;
  issue_lat : Q;
  issue_lng : Q;
  issue_status : string
}.

Record Response : Type := {
  records : list Issue;
  elapsed_ms : Z
}.

(** ** The world *)

Record world : Type := World {
  raises : history -> call -> option exn;      (* does this call raise, after this history? *)
  opened : history -> page;                    (* the page that context.new_page() returns *)
  pages : history -> list page;                (* context.pages *)
  frames : history -> page -> list frame;      (* page.frames *)
  response : history -> option Response        (* what page.goto returns *)
}.

(** ** The monad *)

Inductive handle : Type := Playwright | Browser | BrowserContext.

Record st : Type := St {
  pw : option handle;
  browser : option handle;
  context : option handle;
  trace : history
}.

Inductive res (A : Type) : Type :=
| Ret (a : A)
| Raise (e : exn).
Arguments Ret {A} a.
Arguments Raise {A} e.

Definition M (A : Type) : Type := st -> res A * st.

Definition ret {A} (a : A) : M A := fun s => (Ret a, s).

Definition raise {A} (e : exn) : M A := fun s => (Raise e, s).

Definition bind {A B} (m : M A) (k : A -> M B) : M B := fun s =>
  match m s with
  | (Ret a, s1) => k a s1
  | (Raise e, s1) => (Raise e, s1)
  end.

Notation "x <- m ;; k" := (bind m (fun x => k))
  (at level 61, m at next level, right associativity).
Notation "m ;; k" := (bind m (fun _ => k))
  (at level 61, right associativity).

Definition log (ev : event) (s : st) : st :=
  St (pw s) (browser s) (context s) (trace s ++ [ev]).

(** An awaited driver call: the world decides whether it raises. *)
Definition do_call (w : world) (c : call) : M unit := fun s =>
  let r := raises w (trace s) c in
  (match r with None => Ret tt | Some e => Raise e end, log (Called c r) s).

(** [try: m  except async_api.Error: pass] *)
Definition try_except_Error (m : M unit) : M unit := fun s =>
  match m s with
  | (Raise e, s1) => if is_async_api_Error e then (Ret tt, s1) else (Raise e, s1)
  | (Ret a, s1) => (Ret a, s1)
  end.

(** [try: body  finally: fin].  The [finally] block runs whatever the body
    did; if it raises, its exception is the one that leaves the statement,
    otherwise the body's result stands. *)
Definition try_finally {A} (body : M A) (fin : M unit) : M A := fun s =>
  match body s with
  | (r, s1) =>
      match fin s1 with
      | (Raise e, s2) => (Raise e, s2)
      | (Ret _, s2) => (r, s2)
      end
  end.

(** [for x in l: f x] *)
Fixpoint for_each {A} (l : list A) (f : A -> M unit) : M unit :=
  match l with
  | [] => ret tt
  | x :: t => f x ;; for_each t f
  end.

(** [assert b, msg] in the interpreter's default, non-optimised mode. *)
Definition assert_ (b : bool) (msg : string) : M unit :=
  if b then ret tt else raise (AssertionError msg).

(** [l[-1]] *)
Definition py_last {A} (l : list A) : option A :=
  match rev l with
  | [] => None
  | x :: _ => Some x
  end.

(** ** The driver operations the script uses *)

Definition set_pw : M unit := fun s =>
  (Ret tt, St (Some Playwright) (browser s) (context s) (trace s)).
Definition set_browser : M unit := fun s =>
  (Ret tt, St (pw s) (Some Browser) (context s) (trace s)).
Definition set_context : M unit := fun s =>
  (Ret tt, St (pw s) (browser s) (Some BrowserContext) (trace s)).

(** [context.new_page()] *)
Definition new_page (w : world) : M page := fun s =>
  match do_call w c_new_page s with
  | (Ret _, s1) => (Ret (opened w (trace s)), s1)
  | (Raise e, s1) => (Raise e, s1)
  end.

(** [page.goto(url, wait_until=..., timeout=...)]; returns the response. *)
Definition goto (w : world) (p : page) (url : string)
    (wait_until : option string) (timeout : Z) : M (option Response) := fun s =>
  match do_call w (c_goto p url wait_until timeout) s with
  | (Ret _, s1) => (Ret (response w (trace s)), s1)
  | (Raise e, s1) => (Raise e, s1)
  end.

(** [page.frames] *)
Definition page_frames (w : world) (p : page) : M (list frame) := fun s =>
  let fs := frames w (trace s) p in
  (Ret fs, log (ReadFrames p fs) s).

(** [context.pages[-1]] *)
Definition context_pages_last (w : world) : M page := fun s =>
  let ps := pages w (trace s) in
  (match py_last ps with Some p => Ret p | None => Raise IndexError end,
   log (ReadPages ps) s).

(** ** The script *)

Definition base_url := "http://localhost:3000".
Definition api_url :=
  "http://localhost:3000/api/issues?lat=40.7128&lng=-74.0060&radius=5&filter=status:open".
Definition launch_args : list string :=
  ["--window-size=1280,720"; "--disable-dev-shm-usage"; "--ipc=host"; "--single-process"].
Definition assertion_message :=
  "Test plan execution failed: generic failure assertion as expected result is unknown.".

Definition map_view_link := "xpath=html/body/div/div[2]/div/header/div/div/a[2]".
Definition root_div := "xpath=html/body/div".
Definition zoom_first :=
  "xpath=html/body/div/div[2]/main/div/div[2]/div/div/div/div[2]/div/div/a".
Definition zoom_second :=
  "xpath=html/body/div/div[2]/main/div/div[2]/div/div/div/div[2]/div/div/a[2]".

(** One scripted interaction step, as lines 49-51 and their eight
    repetitions have it:

      frame = context.pages[-1]
      elem = frame.locator(xpath).nth(0)
      await page.wait_for_timeout(3000); await elem.click(timeout=5000)   *)
Definition interact (w : world) (page0 : page) (xpath : string) : M unit :=
  frame <- context_pages_last w ;;
  let elem := Locator frame xpath 0 in
  do_call w (c_wait_for_timeout page0 3000) ;;
  do_call w (c_click elem 5000).

(** The steps after the readiness waits, lines 49-100, in order. *)
Inductive action : Type :=
| click (xpath : string)
| navigate (url : string) (timeout : Z).

Definition steps : list action :=
  [ click map_view_link;            (* 49-51 *)
    navigate api_url 10000;         (* 55 *)
    click map_view_link;            (* 59-61 *)
    click root_div;                 (* 65-67 *)
    click root_div;                 (* 71-73 *)
    click root_div;                 (* 76-78 *)
    click zoom_first;               (* 82-84 *)
    click zoom_second;              (* 87-89 *)
    click root_div;                 (* 92-94 *)
    click root_div ].               (* 98-100 *)

Definition perform (w : world) (page0 : page) (a : action) : M unit :=
  match a with
  | click xpath => interact w page0 xpath
  | navigate url timeout => _ <- goto w page0 url None timeout ;; ret tt
  end.

(** Lines 34-45: the readiness waits on the page and on each frame. *)
Definition wait_ready (w : world) (t : target) : M unit :=
  try_except_Error (do_call w (c_wait_for_load_state t "domcontentloaded" 3000)).

(** Lines 11-26. *)
Definition acquire (w : world) : M unit :=
  do_call w c_start ;; set_pw ;;
  do_call w (c_launch true launch_args) ;; set_browser ;;
  do_call w c_new_context ;; set_context ;;
  do_call w (c_set_default_timeout 5000).

(** Lines 32-104, with [page0] the page that line 29 bound to [page]. *)
Definition script (w : world) (page0 : page) : M unit :=
  _ <- goto w page0 base_url (Some "commit") 10000 ;;
  wait_ready w (on_page page0) ;;
  fs <- page_frames w page0 ;;
  for_each fs (fun f => wait_ready w (on_frame f)) ;;
  for_each steps (perform w page0) ;;
  assert_ false assertion_message ;;
  do_call w (c_sleep 5).

(** Lines 29-104. *)
Definition scenario (w : world) : M unit :=
  page0 <- new_page w ;;
  script w page0.

(** The body of the [try]. *)
Definition body (w : world) : M unit :=
  acquire w ;; scenario w.

(** [if v: m] on a name that holds [None] or a driver object. *)
Definition when_bound (v : option handle) (m : M unit) : M unit :=
  match v with
  | Some _ => m
  | None => ret tt
  end.

(** The [finally] block, lines 106-112. *)
Definition teardown (w : world) : M unit :=
  (fun s => when_bound (context s) (do_call w c_context_close) s) ;;
  (fun s => when_bound (browser s) (do_call w c_browser_close) s) ;;
  (fun s => when_bound (pw s) (do_call w c_stop) s).

Definition init : st := St None None None [].

(** [run_test()], from lines 5-7 to the end of the [finally] block. *)
Definition run_test (w : world) : res unit * st :=
  try_finally (body w) (teardown w) init.

(** [asyncio.run(run_test())] at module level: the one verdict of a run.
    A return is a pass, an exception that leaves [run_test] a failure. *)
Inductive Outcome : Type :=
| passed
| failed (reason : exn).

Definition outcome (w : world) : Outcome :=
  match fst (run_test w) with
  | Ret _ => passed
  | Raise e => failed e
  end.

Definition run_trace (w : world) : history := trace (snd (run_test w)).

(** ** Reading a trace *)

Inductive resource : Type := the_context | the_browser | the_driver.

Definition acquires (x : resource) (c : call) : bool :=
  match x, c with
  | the_driver, c_start => true
  | the_browser, c_launch _ _ => true
  | the_context, c_new_context => true
  | _, _ => false
  end.

Definition closes (x : resource) (c : call) : bool :=
  match x, c with
  | the_context, c_context_close => true
  | the_browser, c_browser_close => true
  | the_driver, c_stop => true
  | _, _ => false
  end.

Definition is_teardown_call (c : call) : bool :=
  match c with
  | c_context_close | c_browser_close | c_stop => true
  | _ => false
  end.

Definition is_click (c : call) : bool :=
  match c with
  | c_click _ _ => true
  | _ => false
  end.

Definition is_load_state_wait (c : call) : bool :=
  match c with
  | c_wait_for_load_state _ _ _ => true
  | _ => false
  end.

(** The event is a call of the given kind. *)
Definition attempt_of (kind : call -> bool) (ev : event) : bool :=
  match ev with
  | Called c _ => kind c
  | _ => false
  end.

(** The event is a call of the given kind that returned. *)
Definition return_of (kind : call -> bool) (ev : event) : bool :=
  match ev with
  | Called c None => kind c
  | _ => false
  end.

(** The exception the call behind an event raised, if any. *)
Definition raised_by (ev : event) : option exn :=
  match ev with
  | Called _ r => r
  | _ => None
  end.

Definition call_of (ev : event) : option call :=
  match ev with
  | Called c _ => Some c
  | _ => None
  end.

(** The resource was acquired: its acquiring call returned, so its name is
    bound. *)
Definition acquired (x : resource) (tr : history) : bool :=
  existsb (return_of (acquires x)) tr.

(** How many times the close of the resource was called. *)
Definition close_attempts (x : resource) (tr : history) : nat :=
  List.length (filter (attempt_of (closes x)) tr).

(** The close of the resource was called and raised. *)
Definition close_raised (x : resource) (tr : history) : bool :=
  existsb (fun ev => attempt_of (closes x) ev &&
                     match raised_by ev with Some _ => true | None => false end) tr.

(** A teardown call placed before the close of the resource raised. *)
Definition blocked (x : resource) (tr : history) : bool :=
  match x with
  | the_context => false
  | the_browser => close_raised the_context tr
  | the_driver => close_raised the_context tr || close_raised the_browser tr
  end.

(** No call of the [finally] block raised. *)
Definition teardown_quiet (tr : history) : bool :=
  forallb (fun ev => negb (attempt_of is_teardown_call ev) ||
                     match raised_by ev with Some _ => false | None => true end) tr.

(** The place of a teardown call in the [finally] block. *)
Definition teardown_rank (ev : event) : nat :=
  match ev with
  | Called c_context_close _ => 0
  | Called c_browser_close _ => 1
  | Called c_stop _ => 2
  | _ => 3
  end.

(** The exception with which an event ends the [try] body, if it does: a
    call that raises, except the readiness waits that swallow Playwright
    errors, and [context.pages[-1]] on an empty list. *)
Definition throws (ev : event) : option exn :=
  match ev with
  | Called (c_wait_for_load_state _ _ _) (Some e) =>
      if is_async_api_Error e then None else Some e
  | Called _ r => r
  | ReadPages ps =>
      match py_last ps with
      | Some _ => None
      | None => Some IndexError
      end
  | ReadFrames _ _ => None
  end.

Definition harmless (ev : event) : Prop := throws ev = None.

(** The events of lines 32-104. *)
Definition scripted (ev : event) : bool :=
  match ev with
  | Called (c_goto _ _ _ _) _
  | Called (c_wait_for_load_state _ _ _) _
  | Called (c_wait_for_timeout _ _) _
  | Called (c_click _ _) _
  | Called (c_sleep _) _ => true
  | Called _ _ => false
  | ReadPages _ | ReadFrames _ _ => true
  end.

(** How many clicks returned. *)
Definition clicks_returned (tr : history) : nat :=
  List.length (filter (return_of is_click) tr).

(** How many clicks a list of actions has: nine for [steps]. *)
Definition nclicks (l : list action) : nat :=
  List.length (filter (fun a => match a with click _ => true | navigate _ _ => false end) l).

(** Whatever a readiness wait raised was a Playwright error: a timeout or
    another [async_api.Error], such as the one for a detached frame. *)
Definition readiness_errors_only (tr : history) : bool :=
  forallb (fun ev => match ev with
                     | Called (c_wait_for_load_state _ _ _) (Some e) => is_async_api_Error e
                     | _ => true
                     end) tr.

Definition ready_wait (t : target) : call :=
  c_wait_for_load_state t "domcontentloaded" 3000.

(** The history when line 29 runs, and the page it binds to [page]. *)
Definition acquisition : history :=
  [ Called c_start None;
    Called (c_launch true launch_args) None;
    Called c_new_context None;
    Called (c_set_default_timeout 5000) None ].

Definition initial_page (w : world) : page := opened w acquisition.

(** ** The claims as the specification words them *)

(** Every resource that was acquired has its close called exactly once. *)
Definition released_once (w : world) : Prop :=
  forall x, acquired x (run_trace w) = true -> close_attempts x (run_trace w) = 1%nat.

(** The close of a resource is called if and only if it was acquired. *)
Definition closed_iff_acquired (w : world) : Prop :=
  forall x, close_attempts x (run_trace w) = 1%nat <-> acquired x (run_trace w) = true.


(** The delay and the click of a step are on the same page only as long
    as no read of [context.pages] so far has shown a page other than the
    initial one. *)
Definition same_page_only_without_other_pages (w : world) : Prop :=
  forall pre l t r post,
    run_trace w = pre ++ Called (c_click l t) r :: post ->
    loc_page l = initial_page w ->
    forall ps p, In (ReadPages ps) pre -> In p ps -> p = initial_page w.

(** ** Worlds *)

(** A world described by which calls raise, with one page, its main frame
    and a fixed answer from the endpoint. *)
Definition simple_world (f : call -> option exn) (ps : list page)
    (fs : list frame) (resp : option Response) : world :=
  World (fun _ c => f c) (fun _ => 0%nat) (fun _ => ps) (fun _ _ => fs) (fun _ => resp).

Definition nothing_raises : call -> option exn := fun _ => None.

Definition empty_answer : option Response := Some (Build_Response [] 120).

(** Everything the driver is asked for succeeds. *)
Definition calm : world := simple_world nothing_raises [0%nat] [0%nat] empty_answer.

(** The world with another answer from the endpoint. *)
Definition with_response (w : world) (f : history -> option Response) : world :=
  World (raises w) (opened w) (pages w) (frames w) f.

Definition with_records (w : world) (recs : list Issue) : world :=
  with_response w (fun h =>
    option_map (fun r => Build_Response recs (elapsed_ms r)) (response w h)).

Definition with_elapsed (w : world) (ms : Z) : world :=
  with_response w (fun h =>
    option_map (fun r => Build_Response (records r) ms) (response w h)).

Definition closed_error : exn :=
  Error "Target page, context or browser has been closed".

Definition context_close_fails : world :=
  simple_world
    (fun c => match c with c_context_close => Some closed_error | _ => None end)
    [0%nat] [0%nat] empty_answer.


Definition stop_fails : world :=
  simple_world
    (fun c => match c with c_stop => Some (Error "Connection closed") | _ => None end)
    [0%nat] [0%nat] empty_answer.

(** The context cannot be created, and closing the browser fails too. *)
Definition no_context_then_browser_close_fails : world :=
  simple_world
    (fun c => match c with
              | c_new_context => Some (Error "Browser closed")
              | c_browser_close => Some closed_error
              | _ => None
              end)
    [0%nat] [0%nat] empty_answer.

(** The map-view link never shows up. *)
Definition link_missing : world :=
  simple_world
    (fun c => match c with c_click _ _ => Some TimeoutError | _ => None end)
    [0%nat] [0%nat] empty_answer.

Definition link_missing_then_context_close_fails : world :=
  simple_world
    (fun c => match c with
              | c_click _ _ => Some TimeoutError
              | c_context_close => Some closed_error
              | _ => None
              end)
    [0%nat] [0%nat] empty_answer.

(** The run is interrupted at the first click on the root [div]. *)
Definition interrupted : world :=
  simple_world
    (fun c => match c with
              | c_click l _ =>
                  if String.eqb (loc_selector l) root_div
                  then Some (OtherException "KeyboardInterrupt")
                  else None
              | _ => None
              end)
    [0%nat] [0%nat] empty_answer.

(** The first click opens a second page. *)
Definition popup : world :=
  World (fun _ _ => None) (fun _ => 0%nat)
        (fun h => if existsb (attempt_of is_click) h then [0%nat; 1%nat] else [0%nat])
        (fun _ _ => [0%nat]) (fun _ => empty_answer).

(** The first click opens a second page, which the second click closes. *)
Definition popup_closed : world :=
  World (fun _ _ => None) (fun _ => 0%nat)
        (fun h => match List.length (filter (attempt_of is_click) h) with
                  | 1%nat => [0%nat; 1%nat]
                  | _ => [0%nat]
                  end)
        (fun _ _ => [0%nat]) (fun _ => empty_answer).

(** The page is slow to load and one of its two frames detaches. *)
Definition slow_page : world :=
  simple_world
    (fun c => match c with
              | c_wait_for_load_state (on_page _) _ _ => Some TimeoutError
              | c_wait_for_load_state (on_frame 7%nat) _ _ => Some (Error "Frame was detached")
              | _ => None
              end)
    [0%nat] [7%nat; 8%nat] empty_answer.

(** The endpoint answers with an issue filed in Paris, some 5800 km from
    the centre of the query. *)
Definition far_away : Issue :=
  {| issue_id := 17; issue_lat := 488566 # 10000; issue_lng := 23522 # 10000;
     issue_status := "open" |}.

Definition outlier : world :=
  simple_world nothing_raises [0%nat] [0%nat] (Some (Build_Response [far_away] 120)).

(** ** Fragments of a run *)

Definition raised {A} (r : res A) : option exn :=
  match r with
  | Ret _ => None
  | Raise e => Some e
  end.

Definition vars (s : st) : option handle * option handle * option handle :=
  (pw s, browser s, context s).

Definition is_bound (v : option handle) : bool :=
  match v with
  | Some _ => true
  | None => false
  end.

Definition var_of (x : resource) (s : st) : option handle :=
  match x with
  | the_context => context s
  | the_browser => browser s
  | the_driver => pw s
  end.

Definition swallowed (r : option exn) : option exn :=
  match r with
  | Some e => if is_async_api_Error e then None else Some e
  | None => None
  end.

Definition all_bound (tr : history) : st :=
  St (Some Playwright) (Some Browser) (Some BrowserContext) tr.

(** The state in which the script starts. *)
Definition script_start : st :=
  all_bound (acquisition ++ [Called c_new_page None]).

(** Lines 32-45: the navigation and the readiness waits. *)
Definition navigation (w : world) (page0 : page) : M unit :=
  _ <- goto w page0 base_url (Some "commit") 10000 ;;
  wait_ready w (on_page page0) ;;
  fs <- page_frames w page0 ;;
  for_each fs (fun f => wait_ready w (on_frame f)).

(** Lines 49-104: what follows the readiness waits. *)
Definition after_ready (w : world) (page0 : page) : M unit :=
  for_each steps (perform w page0) ;;
  assert_ false assertion_message ;;
  do_call w (c_sleep 5).

(** ** Properties of fragments of a run

    A fragment property speaks of the events [ext] that a computation adds
    to a history [h] and of the exception it ends with, if any. *)
Definition fragment : Type := history -> list event -> option exn -> Prop.

Definition sat {A} (P : fragment) (m : M A) : Prop :=
  forall s, exists ext,
    trace (snd (m s)) = trace s ++ ext /\
    vars (snd (m s)) = vars s /\
    P (trace s) ext (raised (fst (m s))).

Record sequential (P : fragment) : Prop := {
  seq_skip : forall h, P h [] None;
  seq_then : forall h e1 e2 o, P h e1 None -> P (h ++ e1) e2 o -> P h (e1 ++ e2) o
}.

(** Every event of the fragment passes a test. *)
Definition only (allowed : event -> bool) : fragment :=
  fun _ ext _ => forallb allowed ext = true.

(** How the body of the [try] can end: by returning, with nothing in it
    that throws; on the final assertion; or on the event that throws,
    which is then its last. *)
Inductive ends : fragment :=
| ends_returning h ext :
    Forall harmless ext -> ends h ext None
| ends_asserting h ext :
    Forall harmless ext -> ends h ext (Some (AssertionError assertion_message))
| ends_throwing h pre ev e :
    Forall harmless pre -> throws ev = Some e -> ends h (pre ++ [ev]) (Some e).

(** Every click comes right after a read of [context.pages] and a settling
    delay of 3000 ms on [page0], and goes to the last page of that read. *)
Definition settled (w : world) (page0 : page) : fragment :=
  fun h ext _ =>
    forall pre l t r post,
      ext = pre ++ Called (c_click l t) r :: post ->
      exists pre' ps,
        pre = pre' ++ [ReadPages ps; Called (c_wait_for_timeout page0 3000) None] /\
        ps = pages w (h ++ pre') /\
        py_last ps = Some (loc_page l) /\
        t = 5000.

(** Where the body can stop before the script starts, or else the state in
    which the script starts. *)
Inductive body_case (w : world) : res unit * st -> Prop :=
| stops_at_start e :
    raises w [] c_start = Some e ->
    body_case w (Raise e, St None None None [Called c_start (Some e)])
| stops_at_launch e :
    raises w (firstn 1 acquisition) (c_launch true launch_args) = Some e ->
    body_case w (Raise e, St (Some Playwright) None None
                   (firstn 1 acquisition ++ [Called (c_launch true launch_args) (Some e)]))
| stops_at_new_context e :
    raises w (firstn 2 acquisition) c_new_context = Some e ->
    body_case w (Raise e, St (Some Playwright) (Some Browser) None
                   (firstn 2 acquisition ++ [Called c_new_context (Some e)]))
| stops_at_set_default_timeout e :
    raises w (firstn 3 acquisition) (c_set_default_timeout 5000) = Some e ->
    body_case w (Raise e, all_bound
                   (firstn 3 acquisition ++ [Called (c_set_default_timeout 5000) (Some e)]))
| stops_at_new_page e :
    raises w acquisition c_new_page = Some e ->
    body_case w (Raise e, all_bound (acquisition ++ [Called c_new_page (Some e)]))
| runs_script :
    raises w acquisition c_new_page = None ->
    body_case w (script w (initial_page w)
                   (all_bound (acquisition ++ [Called c_new_page None]))).

(** What the [finally] block adds to a run whose body ended in state [sb]
    with result [rb]: the events [td] and the result [r] of the whole
    statement. *)
Record torn (sb : st) (rb : res unit) (td : list event) (r : res unit) : Prop := {
  torn_calls : forallb (attempt_of is_teardown_call) td = true;
  torn_order : StronglySorted (fun a b => (teardown_rank a < teardown_rank b)%nat) td;
  torn_count : forall x,
    close_attempts x td =
    if is_bound (var_of x sb) && negb (blocked x td) then 1%nat else 0%nat;
  torn_raise : forall pre ev post e,
    td = pre ++ ev :: post -> raised_by ev = Some e -> post = [] /\ r = Raise e;
  torn_quiet : teardown_quiet td = true -> r = rb
}.

(** What the body of the [try] hands to the [finally] block: its result
    [rb], never a return, and its state [sb], in which a name is bound
    exactly when its resource was acquired. *)
Record tried (rb : res unit) (sb : st) : Prop := {
  tried_bound : forall x, is_bound (var_of x sb) = acquired x (trace sb);
  tried_calls :
    forallb (fun ev => negb (attempt_of is_teardown_call ev)) (trace sb) = true;
  tried_ends : ends [] (trace sb) (raised rb);
  tried_fails : raised rb <> None
}.

(** ** Further readings of a trace *)

Definition is_sleep (c : call) : bool :=
  match c with
  | c_sleep _ => true
  | _ => false
  end.

(** The scripted action behind an event: a click, with the selector of
    its locator, or a navigation without [wait_until], as at line 55.  The
    navigation of line 32 waits for "commit" and is no action of [steps]. *)
Definition attempted (ev : event) : option action :=
  match ev with
  | Called (c_click l _) _ => Some (click (loc_selector l))
  | Called (c_goto _ url None t) _ => Some (navigate url t)
  | _ => None
  end.

(** The scripted actions whose driver call was made, in order. *)
Definition attempts (tr : history) : list action :=
  flat_map (fun ev => match attempted ev with Some a => [a] | None => [] end) tr.

(** The time limit, in milliseconds, that a call passes to the driver. *)
Definition time_limit (c : call) : Z :=
  match c with
  | c_goto _ _ _ t => t
  | c_wait_for_load_state _ _ t => t
  | c_wait_for_timeout _ ms => ms
  | c_click _ t => t
  | _ => 0
  end.

(** The time limits of the calls of a trace, added up. *)
Definition budget (tr : history) : Z :=
  fold_right (fun ev acc => match ev with Called c _ => time_limit c + acc | _ => acc end)
             0 tr.

(** The number of frames that the reads of [page.frames] produced. *)
Definition frames_read (tr : history) : Z :=
  fold_right (fun ev acc => match ev with
                            | ReadFrames _ fs => Z.of_nat (List.length fs) + acc
                            | _ => acc
                            end) 0 tr.

(** The time limits that one action passes: the settling delay and the
    click, or the navigation. *)
Definition action_limit (a : action) : Z :=
  match a with
  | click _ => 3000 + 5000
  | navigate _ t => t
  end.

Definition actions_limit (l : list action) : Z :=
  fold_right (fun a acc => action_limit a + acc) 0 l.

(** The endpoint refuses the connection. *)
Definition endpoint_down : world :=
  simple_world
    (fun c => match c with
              | c_goto _ _ None _ => Some (Error "net::ERR_CONNECTION_REFUSED")
              | _ => None
              end)
    [0%nat] [0%nat] None.

(** The page was closed behind the script's back: the context has no page. *)
Definition no_pages : world :=
  simple_world nothing_raises [] [0%nat] empty_answer.

(** The task is cancelled while the page loads. *)
Definition cancelled_while_loading : world :=
  simple_world
    (fun c => match c with
              | c_wait_for_load_state (on_page _) _ _ => Some (OtherException "CancelledError")
              | _ => None
              end)
    [0%nat] [0%nat] empty_answer.

(** Nothing ended the body of the [try] before its assertion: no event
    outside the [finally] block throws. *)
Definition nothing_thrown (tr : history) : bool :=
  forallb (fun ev => attempt_of is_teardown_call ev ||
                     match throws ev with Some _ => false | None => true end) tr.

(** How a piece of the script without assertion can end: by returning,
    with nothing in it that throws, or on the event that throws, which is
    then its last. *)
Inductive stops : fragment :=
| stops_returning h ext :
    Forall harmless ext -> stops h ext None
| stops_throwing h pre ev e :
    Forall harmless pre -> throws ev = Some e -> stops h (pre ++ [ev]) (Some e).

(** ** Lists *)

Lemma forallb_weaken {A} (f g : A -> bool) (l : list A) :
  (forall x, f x = true -> g x = true) ->
  forallb f l = true -> forallb g l = true.
Proof.
  intros H. rewrite !forallb_forall. auto.
Qed.

Lemma existsb_none {A} (f : A -> bool) (l : list A) :
  (forall x, In x l -> f x = false) -> existsb f l = false.
Proof.
  induction l as [| a l IH]; cbn; intros H; [reflexivity |].
  rewrite H, IH; auto.
Qed.

Lemma py_last_app {A} (l : list A) (x : A) : py_last (l ++ [x]) = Some x.
Proof. unfold py_last. now rewrite rev_app_distr. Qed.

Lemma py_last_in {A} (l : list A) (x : A) : py_last l = Some x -> In x l.
Proof.
  unfold py_last. intros H. apply in_rev.
  destruct (rev l) as [| y l']; [discriminate |]. injection H as ->. now left.
Qed.

Lemma split_in_front {A} (h rest pre post : list A) (x : A) :
  h ++ rest = pre ++ x :: post -> ~ In x h ->
  exists pre2, pre = h ++ pre2 /\ rest = pre2 ++ x :: post.
Proof.
  intros H Hx. apply app_eq_app in H. destruct H as (mid & [[-> Hm] | [-> Hm]]).
  - destruct mid as [| y mid]; cbn in Hm.
    + exists []. rewrite !app_nil_r. auto.
    + injection Hm as <- ->. exfalso. apply Hx, in_or_app. right. now left.
  - exists mid. auto.
Qed.

Lemma split_behind {A} (ext td pre post : list A) (x : A) :
  ext ++ td = pre ++ x :: post -> ~ In x td ->
  exists post1, ext = pre ++ x :: post1 /\ post = post1 ++ td.
Proof.
  intros H Hx. apply app_eq_app in H. destruct H as (mid & [[-> Hm] | [-> Hm]]).
  - destruct mid as [| y mid]; cbn in Hm.
    + exfalso. apply Hx. rewrite <- Hm. now left.
    + injection Hm as <- ->. exists mid. auto.
  - exfalso. apply Hx. rewrite Hm. apply in_or_app. right. now left.
Qed.

Lemma split_at_end {A} (pre post pre0 : list A) (x ev : A) :
  pre ++ x :: post = pre0 ++ [ev] -> ~ In x pre0 ->
  pre = pre0 /\ x = ev /\ post = [].
Proof.
  intros H Hx. symmetry in H.
  destruct (split_in_front pre0 [ev] pre post x H Hx) as (pre2 & -> & H2).
  destruct pre2 as [| y pre2]; cbn in H2.
  - injection H2 as -> <-. rewrite app_nil_r. auto.
  - injection H2 as _ H2. destruct pre2; discriminate.
Qed.

(** ** The monad's laws of motion *)

Lemma bind_assoc {A B C} (m : M A) (k : A -> M B) (k' : B -> M C) (s : st) :
  bind (bind m k) k' s = bind m (fun a => bind (k a) k') s.
Proof. unfold bind. destruct (m s) as [[a | e] s1]; reflexivity. Qed.

Lemma bind_ext {A B} (m m' : M A) (k k' : A -> M B) :
  (forall s, m s = m' s) -> (forall a s, k a s = k' a s) ->
  forall s, bind m k s = bind m' k' s.
Proof.
  intros Hm Hk s. unfold bind. rewrite Hm.
  destruct (m' s) as [[a | e] s1]; [apply Hk | reflexivity].
Qed.

Lemma for_each_ext {A} (l : list A) (f f' : A -> M unit) :
  (forall x s, f x s = f' x s) -> forall s, for_each l f s = for_each l f' s.
Proof.
  intros Hf. induction l as [| x l IH]; intros s; cbn [for_each]; [reflexivity |].
  apply bind_ext; auto.
Qed.

Lemma bind_fails {A B} (m : M A) (k : A -> M B) :
  (forall a s, raised (fst (k a s)) <> None) ->
  forall s, raised (fst (bind m k s)) <> None.
Proof.
  intros Hk s. unfold bind. destruct (m s) as [[a | e] s1]; cbn.
  - apply Hk.
  - discriminate.
Qed.

Lemma sat_ret {A} (P : fragment) (a : A) :
  sequential P -> sat P (ret a).
Proof.
  intros HP s. exists []. cbn. rewrite app_nil_r.
  repeat split. apply (seq_skip P HP).
Qed.

Lemma sat_bind {A B} (P : fragment) (m : M A) (k : A -> M B) :
  sequential P -> sat P m -> (forall a, sat P (k a)) -> sat P (bind m k).
Proof.
  intros HP Hm Hk s. unfold bind.
  destruct (Hm s) as (e1 & Ht1 & Hv1 & H1).
  destruct (m s) as [[a | e] s1]; cbn in *.
  - destruct (Hk a s1) as (e2 & Ht2 & Hv2 & H2).
    exists (e1 ++ e2). rewrite Ht2, Ht1, Hv2, Hv1, app_assoc.
    repeat split. apply (seq_then P HP); [exact H1 |].
    rewrite <- Ht1. exact H2.
  - exists e1. auto.
Qed.

Lemma sat_for_each {A} (P : fragment) (l : list A) (f : A -> M unit) :
  sequential P -> (forall x, sat P (f x)) -> sat P (for_each l f).
Proof.
  intros HP Hf. induction l as [| x l IH]; cbn [for_each].
  - apply sat_ret, HP.
  - apply sat_bind; auto.
Qed.

Lemma sat_raise {A} (P : fragment) (e : exn) :
  (forall h, P h [] (Some e)) -> sat P (@raise A e).
Proof.
  intros H s. exists []. cbn. rewrite app_nil_r. repeat split. apply H.
Qed.

(** A computation that adds one event. *)
Lemma sat_do_call (P : fragment) (w : world) (c : call) :
  (forall h, P h [Called c (raises w h c)] (raises w h c)) ->
  sat P (do_call w c).
Proof.
  intros H s. exists [Called c (raises w (trace s) c)]. cbn.
  repeat split. specialize (H (trace s)).
  destruct (raises w (trace s) c); exact H.
Qed.

Lemma sat_goto (P : fragment) (w : world) p url wu t :
  (forall h, P h [Called (c_goto p url wu t) (raises w h (c_goto p url wu t))]
               (raises w h (c_goto p url wu t))) ->
  sat P (goto w p url wu t).
Proof.
  intros H s. exists [Called (c_goto p url wu t) (raises w (trace s) (c_goto p url wu t))].
  unfold goto, do_call. specialize (H (trace s)).
  destruct (raises w (trace s) (c_goto p url wu t)); cbn; repeat split; exact H.
Qed.

Lemma sat_wait_ready (P : fragment) (w : world) (t : target) :
  (forall h,
     let c := c_wait_for_load_state t "domcontentloaded" 3000 in
     P h [Called c (raises w h c)] (swallowed (raises w h c))) ->
  sat P (wait_ready w t).
Proof.
  intros H s.
  exists [Called (c_wait_for_load_state t "domcontentloaded" 3000)
            (raises w (trace s) (c_wait_for_load_state t "domcontentloaded" 3000))].
  unfold wait_ready, try_except_Error, do_call. specialize (H (trace s)). cbn in H.
  destruct (raises w (trace s) _) as [e |]; cbn in *; [| repeat split; exact H].
  destruct (is_async_api_Error e); cbn; repeat split; exact H.
Qed.

Lemma sat_page_frames (P : fragment) (w : world) (p : page) :
  (forall h, P h [ReadFrames p (frames w h p)] None) ->
  sat P (page_frames w p).
Proof.
  intros H s. exists [ReadFrames p (frames w (trace s) p)]. cbn.
  repeat split. apply H.
Qed.

Lemma sat_pages_last (P : fragment) (w : world) :
  (forall h, P h [ReadPages (pages w h)]
               (match py_last (pages w h) with Some _ => None | None => Some IndexError end)) ->
  sat P (context_pages_last w).
Proof.
  intros H s. exists [ReadPages (pages w (trace s))]. cbn.
  repeat split. specialize (H (trace s)).
  destruct (py_last (pages w (trace s))); exact H.
Qed.

(** ** The script, piece by piece

    Whatever holds of each piece of the script and survives sequencing
    holds of the script. *)

Section Script.
Variable w : world.
Variable page0 : page.
Variable P : fragment.
Hypothesis P_seq : sequential P.
Hypothesis P_goto : forall url wu t, sat P (goto w page0 url wu t).
Hypothesis P_wait : forall t, sat P (wait_ready w t).
Hypothesis P_frames : sat P (page_frames w page0).
Hypothesis P_interact : forall xpath, sat P (interact w page0 xpath).
Hypothesis P_assert : forall h, P h [] (Some (AssertionError assertion_message)).
Hypothesis P_sleep : sat P (do_call w (c_sleep 5)).

Lemma sat_perform (a : action) : sat P (perform w page0 a).
Proof.
  destruct a as [xpath | url t]; cbn [perform].
  - apply P_interact.
  - apply sat_bind; auto. intros _. apply sat_ret, P_seq.
Qed.

Lemma sat_steps (l : list action) : sat P (for_each l (perform w page0)).
Proof. apply sat_for_each; auto using sat_perform. Qed.

Lemma sat_after_frames (fs : list frame) :
  sat P (for_each fs (fun f => wait_ready w (on_frame f)) ;;
         for_each steps (perform w page0) ;;
         assert_ false assertion_message ;;
         do_call w (c_sleep 5)).
Proof.
  apply sat_bind; auto. { apply sat_for_each; auto. }
  intros _. apply sat_bind; auto using sat_steps.
  intros _. apply sat_bind; auto.
  cbn [assert_]. apply sat_raise, P_assert.
Qed.

Lemma sat_script : sat P (script w page0).
Proof.
  unfold script.
  apply sat_bind; auto. intros _.
  apply sat_bind; auto. intros _.
  apply sat_bind; auto. intros fs.
  apply sat_after_frames.
Qed.
End Script.

(** ** Sequencing the fragment properties *)

Lemma only_sequential (allowed : event -> bool) : sequential (only allowed).
Proof.
  split; unfold only.
  - reflexivity.
  - intros h e1 e2 o H1 H2. rewrite forallb_app, H1, H2. reflexivity.
Qed.

Lemma ends_sequential : sequential ends.
Proof.
  split.
  - intros h. apply ends_returning. constructor.
  - intros h e1 e2 o H1 H2. inversion H1 as [h1 x1 Hx1 | |]; subst.
    inversion H2 as [h2 x2 Hx2 | h2 x2 Hx2 | h2 pre ev e Hpre Hev]; subst.
    + apply ends_returning. apply Forall_app; auto.
    + apply ends_asserting. apply Forall_app; auto.
    + rewrite app_assoc. apply ends_throwing; auto. apply Forall_app; auto.
Qed.

Lemma settled_sequential (w : world) (page0 : page) : sequential (settled w page0).
Proof.
  split.
  - intros h pre l t r post H. destruct pre; discriminate.
  - intros h e1 e2 o H1 H2 pre l t r post H.
    apply app_eq_app in H. destruct H as (mid & [[-> Hm] | [-> Hm]]).
    + destruct mid as [| ev mid]; cbn in Hm.
      * destruct (H2 [] l t r post) as (pre' & ps & Hp & _); [now rewrite <- Hm |].
        destruct pre'; discriminate.
      * injection Hm as <- ->.
        destruct (H1 pre l t r mid eq_refl) as (pre' & ps & -> & ? & ? & ?).
        exists pre', ps. auto.
    + destruct (H2 mid l t r post Hm) as (pre' & ps & -> & Hps & ? & ?).
      exists (e1 ++ pre'), ps. rewrite <- !app_assoc in *. auto.
Qed.

(** ** What the script adds to the trace *)

Lemma only_one (allowed : event -> bool) h ev o :
  allowed ev = true -> only allowed h [ev] o.
Proof. intros H. unfold only. cbn. now rewrite H. Qed.

Ltac scripted_pieces :=
  pose proof (only_sequential scripted);
  repeat first
    [ assumption
    | reflexivity
    | apply sat_goto; intros; now apply only_one
    | apply sat_wait_ready; intros; now apply only_one
    | apply sat_page_frames; intros; now apply only_one
    | apply sat_pages_last; intros; now apply only_one
    | apply sat_do_call; intros; now apply only_one
    | apply sat_bind
    | apply sat_ret
    | apply sat_raise
    | progress cbn [assert_]
    | intro ].

Lemma script_scripted (w : world) (page0 : page) :
  sat (only scripted) (script w page0).
Proof.
  pose proof (only_sequential scripted) as HS.
  apply sat_script; auto.
  - intros. apply sat_goto. intros. now apply only_one.
  - intros. apply sat_wait_ready. intros. now apply only_one.
  - apply sat_page_frames. intros. now apply only_one.
  - intros. unfold interact.
    apply sat_bind; auto. { apply sat_pages_last. intros. now apply only_one. }
    intros frame. apply sat_bind; auto; intros; apply sat_do_call; intros; now apply only_one.
  - reflexivity.
  - apply sat_do_call. intros. now apply only_one.
Qed.

Lemma steps_scripted (w : world) (page0 : page) (l : list action) :
  sat (only scripted) (for_each l (perform w page0)).
Proof.
  apply sat_steps; unfold interact; scripted_pieces.
Qed.

Lemma ends_call h c r :
  is_load_state_wait c = false -> ends h [Called c r] r.
Proof.
  intros Hc. destruct r as [e |].
  - apply (ends_throwing h [] (Called c (Some e)) e); [constructor |].
    destruct c; try reflexivity; discriminate.
  - apply ends_returning. repeat constructor. now destruct c.
Qed.

Lemma ends_wait h t state ms r :
  ends h [Called (c_wait_for_load_state t state ms) r] (swallowed r).
Proof.
  destruct r as [e |]; cbn.
  - destruct (is_async_api_Error e) eqn:He.
    + apply ends_returning. repeat constructor. unfold harmless. cbn. now rewrite He.
    + apply (ends_throwing h [] _ e); [constructor |]. cbn. now rewrite He.
  - apply ends_returning. repeat constructor.
Qed.

Lemma ends_pages h ps :
  ends h [ReadPages ps] (match py_last ps with Some _ => None | None => Some IndexError end).
Proof.
  destruct (py_last ps) eqn:Hps.
  - apply ends_returning. repeat constructor. unfold harmless. cbn. now rewrite Hps.
  - apply (ends_throwing h [] _ IndexError); [constructor |]. cbn. now rewrite Hps.
Qed.

Lemma script_ends (w : world) (page0 : page) :
  sat ends (script w page0).
Proof.
  pose proof ends_sequential as HS.
  apply sat_script; auto.
  - intros. apply sat_goto. intros. now apply ends_call.
  - intros. apply sat_wait_ready. intros. apply ends_wait.
  - apply sat_page_frames. intros. apply ends_returning. repeat constructor.
  - intros. unfold interact.
    apply sat_bind; auto. { apply sat_pages_last. intros. apply ends_pages. }
    intros frame. apply sat_bind; auto; intros; apply sat_do_call; intros; now apply ends_call.
  - intros. apply ends_asserting. constructor.
  - apply sat_do_call. intros. now apply ends_call.
Qed.

Lemma settled_one (w : world) (page0 : page) h ev o :
  attempt_of is_click ev = false -> settled w page0 h [ev] o.
Proof.
  intros Hev pre l t r post H.
  destruct pre as [| x pre]; [| destruct pre; discriminate].
  injection H as -> _. discriminate.
Qed.

Lemma interact_settled (w : world) (page0 : page) (xpath : string) :
  sat (settled w page0) (interact w page0 xpath).
Proof.
  intros s. unfold interact, bind, context_pages_last, do_call. cbn.
  destruct (py_last (pages w (trace s))) as [p |] eqn:Hp.
  - destruct (raises w (trace s ++ [ReadPages (pages w (trace s))])
                (c_wait_for_timeout page0 3000)) as [e |] eqn:Hw; cbn.
    + eexists [_; _]. rewrite <- app_assoc. repeat split.
      intros pre l t r post H.
      destruct pre as [| ? [| ? [| ? pre]]]; try discriminate; destruct pre; discriminate.
    + eexists [_; _; _]. rewrite <- !app_assoc. repeat split.
      intros pre l t r post H.
      destruct pre as [| ? [| ? [| ? pre]]]; try discriminate;
        [| destruct pre; discriminate].
      injection H as <- <- <- <- <- _. cbn.
      exists [], (pages w (trace s)). rewrite app_nil_r. auto.
  - eexists [_]. repeat split.
    intros pre l t r post H. destruct pre as [| ? pre]; [| destruct pre]; discriminate.
Qed.

Lemma script_settled (w : world) (page0 : page) :
  sat (settled w page0) (script w page0).
Proof.
  pose proof (settled_sequential w page0) as HS.
  apply sat_script; auto.
  - intros. apply sat_goto. intros. now apply settled_one.
  - intros. apply sat_wait_ready. intros. now apply settled_one.
  - apply sat_page_frames. intros. now apply settled_one.
  - apply interact_settled.
  - intros h pre l t r post H. destruct pre; discriminate.
  - apply sat_do_call. intros. now apply settled_one.
Qed.

(** The script never returns: its last statement but one is [assert False]. *)
Lemma script_fails (w : world) (page0 : page) (s : st) :
  raised (fst (script w page0 s)) <> None.
Proof.
  unfold script. revert s.
  do 5 (apply bind_fails; intros ?).
  intros s. cbn. discriminate.
Qed.

Lemma scripted_not_teardown ev :
  scripted ev = true -> negb (attempt_of is_teardown_call ev) = true.
Proof. destruct ev as [[] |? |]; cbn; congruence. Qed.

Lemma teardown_not_acquiring x ev :
  attempt_of is_teardown_call ev = true -> return_of (acquires x) ev = false.
Proof. destruct x, ev as [[] [] |? |]; cbn; congruence. Qed.

Lemma not_in_teardown (td : history) (ev : event) :
  forallb (attempt_of is_teardown_call) td = true ->
  attempt_of is_teardown_call ev = false -> ~ In ev td.
Proof.
  intros H Hev Hin. rewrite forallb_forall in H. rewrite (H ev Hin) in Hev. discriminate.
Qed.

Lemma not_in_harmless (pre : history) (ev : event) :
  Forall harmless pre -> throws ev <> None -> ~ In ev pre.
Proof.
  intros H Hev Hin. rewrite Forall_forall in H. apply Hev, H, Hin.
Qed.

(** An event that throws is the last of the body, and what it throws is
    what the body ends with. *)
Lemma ends_on_throw h ext o pre ev post :
  ends h ext o -> ext = pre ++ ev :: post -> throws ev <> None ->
  post = [] /\ o = throws ev.
Proof.
  intros He Hsplit Hev. destruct He as [h x Hx | h x Hx | h pre0 ev0 e Hpre He].
  1-2: exfalso; rewrite Hsplit in Hx; apply Forall_app in Hx; destruct Hx as [_ Hx];
    inversion Hx as [| ? ? Hc _]; now apply Hev.
  symmetry in Hsplit.
  destruct (split_at_end _ _ _ _ _ Hsplit (not_in_harmless _ _ Hpre Hev))
    as (_ & -> & ->).
  auto.
Qed.

(** ** The body of the [try] *)

Lemma body_cases (w : world) : body_case w (body w init).
Proof.
  unfold body, acquire, scenario, new_page, bind, do_call, set_pw, set_browser,
    set_context, init; cbn.
  destruct (raises w [] c_start) eqn:H1; cbn; [now constructor |].
  destruct (raises w [Called c_start None] (c_launch true launch_args)) eqn:H2; cbn.
  { now apply stops_at_launch. }
  destruct (raises w [Called c_start None; Called (c_launch true launch_args) None]
              c_new_context) eqn:H3; cbn.
  { now apply stops_at_new_context. }
  destruct (raises w [Called c_start None; Called (c_launch true launch_args) None;
                      Called c_new_context None] (c_set_default_timeout 5000)) eqn:H4; cbn.
  { now apply stops_at_set_default_timeout. }
  fold acquisition.
  destruct (raises w acquisition c_new_page) eqn:H5; cbn.
  { now apply stops_at_new_page. }
  now apply runs_script.
Qed.

Lemma body_tried (w : world) :
  tried (fst (body w init)) (snd (body w init)).
Proof.
  destruct (body_cases w); cbn [fst snd].
  1-5: split; cbn [trace all_bound raised];
    [ intros []; reflexivity
    | reflexivity
    | first [ apply (ends_throwing [] [] _ e); [constructor | reflexivity]
            | apply ends_throwing; [repeat constructor | reflexivity] ]
    | discriminate ].
  fold script_start.
  destruct (script_ends w (initial_page w) script_start) as (ext & Ht & Hv & He).
  destruct (script_scripted w (initial_page w) script_start) as (ext' & Ht' & _ & Hs).
  rewrite Ht in Ht'. apply app_inv_head in Ht'. subst ext'.
  unfold only in Hs.
  destruct (script w (initial_page w) script_start) as [rb sb] eqn:Hrun.
  cbn [fst snd] in *. split.
  - intros x. rewrite Ht. unfold acquired. rewrite existsb_app.
    replace (var_of x sb) with (var_of x script_start).
    + destruct x; reflexivity.
    + unfold vars in Hv. injection Hv as H1 H2 H3. destruct x; cbn; congruence.
  - rewrite Ht, forallb_app. apply andb_true_intro. split; [reflexivity |].
    revert Hs. apply forallb_weaken, scripted_not_teardown.
  - rewrite Ht. apply (seq_then ends ends_sequential); [| exact He].
    apply ends_returning. repeat constructor.
  - pose proof (script_fails w (initial_page w) script_start) as Hf.
    now rewrite Hrun in Hf.
Qed.

(** ** The [finally] block *)

Lemma raise_in_short_list (td : list event) (r : res unit) :
  (List.length td <= 3)%nat ->
  (forall n ev e, nth_error td n = Some ev -> raised_by ev = Some e ->
                  S n = List.length td /\ r = Raise e) ->
  forall pre ev post e,
    td = pre ++ ev :: post -> raised_by ev = Some e -> post = [] /\ r = Raise e.
Proof.
  intros Hlen H pre ev post e -> Hev.
  destruct (H (List.length pre) ev e) as [Hn Hr]; auto.
  - rewrite nth_error_app2, Nat.sub_diag by lia. reflexivity.
  - split; auto. rewrite length_app in Hn. cbn in Hn.
    destruct post; [reflexivity | cbn in Hn; lia].
Qed.

Lemma finally_torn (w : world) (m : M unit) (s : st) :
  exists td,
    trace (snd (try_finally m (teardown w) s)) = trace (snd (m s)) ++ td /\
    torn (snd (m s)) (fst (m s)) td (fst (try_finally m (teardown w) s)).
Proof.
  unfold try_finally. destruct (m s) as [rb sb]. cbn [fst snd].
  destruct sb as [a b c tr].
  unfold teardown, bind, when_bound, do_call, ret; cbn.
  destruct c as [c |], b as [b |], a as [a |]; cbn;
    repeat match goal with
    | |- context [raises w ?h ?c] => destruct (raises w h c) eqn:?; cbn
    end;
    rewrite <- ?app_assoc; cbn.
  all: (eexists; split; [try reflexivity; symmetry; apply app_nil_r |]).
  all: split.
  all: try reflexivity.
  all: try solve [repeat constructor].
  all: try solve [intros []; reflexivity].
  all: try solve [cbn; intros; try discriminate; try reflexivity].
  all: apply raise_in_short_list; [cbn; lia |].
  all: intros [| [| [| n]]] ev e' Hn He; cbn in Hn; try discriminate Hn.
  all: try (destruct n; discriminate Hn).
  all: injection Hn as <-; cbn in He; try discriminate He.
  all: injection He as <-; split; reflexivity.
Qed.

(** ** The whole run *)

Lemma run_anatomy (w : world) :
  exists td,
    run_trace w = trace (snd (body w init)) ++ td /\
    tried (fst (body w init)) (snd (body w init)) /\
    torn (snd (body w init)) (fst (body w init)) td (fst (run_test w)).
Proof.
  destruct (finally_torn w (body w) init) as (td & Ht & Htorn).
  exists td. split; [exact Ht |]. split; [apply body_tried | exact Htorn].
Qed.

Lemma closes_is_teardown x c : closes x c = true -> is_teardown_call c = true.
Proof. destruct x, c; cbn; congruence. Qed.

Lemma no_close_before_teardown x (tr : history) :
  forallb (fun ev => negb (attempt_of is_teardown_call ev)) tr = true ->
  filter (attempt_of (closes x)) tr = [] /\ close_raised x tr = false.
Proof.
  intros H. rewrite forallb_forall in H. split.
  - induction tr as [| ev tr IH]; cbn; [reflexivity |].
    destruct (attempt_of (closes x) ev) eqn:Hev.
    + specialize (H ev (or_introl eq_refl)).
      destruct ev as [c r | |]; try discriminate. cbn in *.
      now rewrite (closes_is_teardown x c Hev) in H.
    + apply IH. intros y Hy. apply H. now right.
  - apply existsb_none. intros ev Hev. specialize (H ev Hev).
    destruct (attempt_of (closes x) ev) eqn:Hc; [| reflexivity].
    destruct ev as [c r | |]; try discriminate. cbn in *.
    now rewrite (closes_is_teardown x c Hc) in H.
Qed.

Lemma nothing_acquired_in_teardown x (td : history) :
  forallb (attempt_of is_teardown_call) td = true -> acquired x td = false.
Proof.
  intros H. rewrite forallb_forall in H. apply existsb_none.
  intros ev Hev. apply teardown_not_acquiring, H, Hev.
Qed.

(** The three counts of the run, read off its anatomy. *)
Lemma run_counts (w : world) (x : resource) :
  exists td,
    run_trace w = trace (snd (body w init)) ++ td /\
    close_attempts x (run_trace w) = close_attempts x td /\
    acquired x (run_trace w) = is_bound (var_of x (snd (body w init))) /\
    (forall y, close_raised y (run_trace w) = close_raised y td) /\
    teardown_quiet (run_trace w) = teardown_quiet td /\
    torn (snd (body w init)) (fst (body w init)) td (fst (run_test w)).
Proof.
  destruct (run_anatomy w) as (td & Ht & Hb & Htd).
  exists td. split; [exact Ht |].
  pose proof (tried_calls _ _ Hb) as Hcalls.
  split; [| split; [| split; [| split; [| exact Htd]]]].
  - unfold close_attempts. rewrite Ht, filter_app, length_app.
    now rewrite (proj1 (no_close_before_teardown x _ Hcalls)).
  - rewrite (tried_bound _ _ Hb). unfold acquired at 1. rewrite Ht, existsb_app.
    fold (acquired x td).
    rewrite (nothing_acquired_in_teardown x td (torn_calls _ _ _ _ Htd)).
    apply orb_false_r.
  - intros y. unfold close_raised at 1. rewrite Ht, existsb_app.
    fold (close_raised y (trace (snd (body w init)))).
    now rewrite (proj2 (no_close_before_teardown y _ Hcalls)).
  - unfold teardown_quiet at 1. rewrite Ht, forallb_app.
    fold (teardown_quiet td).
    replace (forallb _ (trace (snd (body w init)))) with true; [reflexivity |].
    symmetry. revert Hcalls. apply forallb_weaken.
    intros ev Hev. now rewrite Hev.
Qed.

Lemma blocked_in_run (w : world) (x : resource) (td : history) :
  (forall y, close_raised y (run_trace w) = close_raised y td) ->
  blocked x (run_trace w) = blocked x td.
Proof. intros H. destruct x; cbn; now rewrite ?H. Qed.

Lemma quiet_not_raised (x : resource) (tr : history) :
  teardown_quiet tr = true -> close_raised x tr = false.
Proof.
  intros H. unfold teardown_quiet in H. rewrite forallb_forall in H.
  apply existsb_none. intros ev Hev. specialize (H ev Hev).
  destruct (attempt_of (closes x) ev) eqn:Hc; [| reflexivity].
  destruct ev as [c r | |]; try discriminate. cbn in *.
  rewrite (closes_is_teardown x c Hc) in H. now destruct r.
Qed.

Lemma quiet_not_blocked (x : resource) (tr : history) :
  teardown_quiet tr = true -> blocked x tr = false.
Proof.
  intros H. destruct x; cbn; now rewrite ?quiet_not_raised.
Qed.

(** With a quiet teardown, a close is called once on what was acquired
    and not at all on the rest. *)
Lemma quiet_release (w : world) (x : resource) :
  teardown_quiet (run_trace w) = true ->
  close_attempts x (run_trace w) = if acquired x (run_trace w) then 1%nat else 0%nat.
Proof.
  intros Hq.
  destruct (run_counts w x) as (td & _ & Hc & Ha & Hr & Hq' & Htd).
  rewrite Hc, Ha, (torn_count _ _ _ _ Htd), quiet_not_blocked; [| congruence].
  now rewrite andb_true_r.
Qed.

Lemma noisy_teardown (td : history) :
  teardown_quiet td = false ->
  exists pre ev post e, td = pre ++ ev :: post /\ raised_by ev = Some e.
Proof.
  induction td as [| ev td IH]; cbn; [discriminate |].
  destruct (raised_by ev) as [e |] eqn:He.
  - intros _. exists [], ev, td, e. auto.
  - rewrite orb_true_r. cbn. intros H.
    destruct (IH H) as (pre & ev' & post & e & -> & He').
    exists (ev :: pre), ev', post, e. auto.
Qed.

(** No run returns: whatever happens, [run_test] ends with an exception. *)
Lemma run_raises (w : world) : exists e, fst (run_test w) = Raise e.
Proof.
  destruct (run_anatomy w) as (td & _ & Hb & Htd).
  destruct (teardown_quiet td) eqn:Hq.
  - rewrite (torn_quiet _ _ _ _ Htd Hq).
    pose proof (tried_fails _ _ Hb) as Hf.
    destruct (fst (body w init)) as [[] | e]; [now elim Hf | now exists e].
  - destruct (noisy_teardown td Hq) as (pre & ev & post & e & Htd' & He).
    exists e. apply (torn_raise _ _ _ _ Htd pre ev post e Htd' He).
Qed.

Lemma outcome_failed (w : world) (e : exn) :
  fst (run_test w) = Raise e -> outcome w = failed e.
Proof. unfold outcome. now intros ->. Qed.

Lemma never_passed (w : world) : outcome w <> passed.
Proof.
  destruct (run_raises w) as (e & He). rewrite (outcome_failed w e He). discriminate.
Qed.

(** A scripted event of the run belongs to the script: the run got as far
    as line 32, and the event lies between the start of the script and the
    [finally] block. *)
Lemma scripted_event_in_script (w : world) (pre post : history) (ev : event) :
  run_trace w = pre ++ ev :: post -> scripted ev = true ->
  exists ext td pre2 post1,
    body w init = script w (initial_page w) script_start /\
    trace (snd (body w init)) = trace script_start ++ ext /\
    run_trace w = trace (snd (body w init)) ++ td /\
    torn (snd (body w init)) (fst (body w init)) td (fst (run_test w)) /\
    pre = trace script_start ++ pre2 /\
    ext = pre2 ++ ev :: post1 /\
    post = post1 ++ td.
Proof.
  intros H Hev.
  destruct (run_anatomy w) as (td & Ht & _ & Htd).
  assert (Hntd : ~ In ev td).
  { apply not_in_teardown; [apply (torn_calls _ _ _ _ Htd) |].
    destruct ev as [[] |? |]; try reflexivity; discriminate. }
  rewrite Ht in H. destruct (split_behind _ _ _ _ _ H Hntd) as (post1 & Hb & Hp).
  pose proof (body_cases w) as Hcase.
  remember (body w init) as b eqn:Hbody.
  destruct Hcase as [e ? | e ? | e ? | e ? | e ? | ?].
  1-5: exfalso; cbn in Hb;
    assert (Hin : In ev (pre ++ ev :: post1)) by (apply in_or_app; right; now left);
    rewrite <- Hb in Hin; cbn in Hin;
    repeat (destruct Hin as [<- | Hin]; [discriminate |]); exact Hin.
  fold script_start in *.
  destruct (script_scripted w (initial_page w) script_start) as (ext & Hext & _ & _).
  rewrite Hext in Hb.
  assert (Hnst : ~ In ev (trace script_start)).
  { cbn. intros Hin. repeat (destruct Hin as [<- | Hin]; [discriminate |]). exact Hin. }
  destruct (split_in_front _ _ _ _ _ Hb Hnst) as (pre2 & Hpre & Hext2).
  exists ext, td, pre2, post1. repeat apply conj; auto.
Qed.

(** Every click of a run, seen in the run's trace. *)
Lemma click_in_run (w : world) pre l t r post :
  run_trace w = pre ++ Called (c_click l t) r :: post ->
  exists mid ps,
    pre = (trace script_start ++ mid) ++
          [ReadPages ps; Called (c_wait_for_timeout (initial_page w) 3000) None] /\
    ps = pages w (trace script_start ++ mid) /\
    py_last ps = Some (loc_page l) /\
    t = 5000.
Proof.
  intros H.
  destruct (scripted_event_in_script w pre post _ H eq_refl)
    as (ext & td & pre2 & post1 & Hbody & Hext & _ & _ & -> & Hsplit & _).
  destruct (script_settled w (initial_page w) script_start) as (ext' & Hext' & _ & Hs).
  rewrite <- Hbody, Hext in Hext'. apply app_inv_head in Hext'. subst ext'.
  destruct (Hs pre2 l t r post1 Hsplit) as (mid & ps & -> & Hps & Hlast & Ht).
  exists mid, ps. rewrite app_assoc. auto.
Qed.

Lemma throwing_click_ends_body (w : world) pre l t e post :
  run_trace w = pre ++ Called (c_click l t) (Some e) :: post ->
  exists td,
    post = td /\
    run_trace w = trace (snd (body w init)) ++ td /\
    fst (body w init) = Raise e /\
    torn (snd (body w init)) (fst (body w init)) td (fst (run_test w)) /\
    (forall x, acquired x (run_trace w) = true).
Proof.
  intros H.
  destruct (scripted_event_in_script w pre post _ H eq_refl)
    as (ext & td & pre2 & post1 & Hbody & Hext & Ht & Htd & -> & Hsplit & ->).
  pose proof (body_tried w) as Hb.
  pose proof (tried_ends _ _ Hb) as He.
  assert (Hbtr : trace (snd (body w init)) =
                 (trace script_start ++ pre2) ++ Called (c_click l t) (Some e) :: post1).
  { rewrite Hext, Hsplit. apply app_assoc. }
  destruct (ends_on_throw _ _ _ _ _ _ He Hbtr) as [-> Hr]; [discriminate |].
  exists td. repeat apply conj; auto.
  - destruct (fst (body w init)); cbn in Hr; congruence.
  - intros x. unfold acquired. rewrite Ht, Hext, <- !app_assoc, existsb_app.
    destruct x; reflexivity.
Qed.

(** ** Counting the clicks that returned *)

Lemma clicks_returned_app (tr1 tr2 : history) :
  clicks_returned (tr1 ++ tr2) = (clicks_returned tr1 + clicks_returned tr2)%nat.
Proof. unfold clicks_returned. now rewrite filter_app, length_app. Qed.

Lemma no_click_returned (allowed : event -> bool) (tr : history) :
  (forall ev, allowed ev = true -> return_of is_click ev = false) ->
  forallb allowed tr = true -> clicks_returned tr = 0%nat.
Proof.
  intros Ha H. rewrite forallb_forall in H. unfold clicks_returned.
  induction tr as [| ev tr IH]; cbn; [reflexivity |].
  rewrite (Ha ev) by (apply H; now left). apply IH. intros y Hy. apply H. now right.
Qed.

Lemma script_phases (w : world) (page0 : page) (s : st) :
  script w page0 s = bind (navigation w page0) (fun _ => after_ready w page0) s.
Proof.
  unfold script, navigation, after_ready.
  rewrite bind_assoc. apply bind_ext; [reflexivity | intros _ s1].
  rewrite bind_assoc. apply bind_ext; [reflexivity | intros _ s2].
  rewrite bind_assoc. apply bind_ext; [reflexivity | intros fs s3].
  reflexivity.
Qed.

Lemma navigation_clicks_nothing (w : world) (page0 : page) :
  sat (only (fun ev => negb (attempt_of is_click ev))) (navigation w page0).
Proof.
  pose proof (only_sequential (fun ev => negb (attempt_of is_click ev))) as HS.
  unfold navigation.
  apply sat_bind; auto. { apply sat_goto. intros. now apply only_one. }
  intros _. apply sat_bind; auto. { apply sat_wait_ready. intros. now apply only_one. }
  intros _. apply sat_bind; auto. { apply sat_page_frames. intros. now apply only_one. }
  intros fs. apply sat_for_each; auto.
  intros f. apply sat_wait_ready. intros. now apply only_one.
Qed.

(** One action adds one returned click if it is a click that returns, and
    none otherwise. *)
Lemma perform_count (w : world) (page0 : page) (a : action) (s : st) :
  exists ext,
    trace (snd (perform w page0 a s)) = trace s ++ ext /\
    clicks_returned ext =
      match fst (perform w page0 a s), a with
      | Ret _, click _ => 1%nat
      | _, _ => 0%nat
      end.
Proof.
  destruct a as [xpath | url t]; cbn [perform].
  - unfold interact, bind, context_pages_last, do_call. cbn.
    destruct (py_last (pages w (trace s))) as [p |]; cbn.
    + destruct (raises w _ (c_wait_for_timeout page0 3000)) as [e |]; cbn.
      * eexists [_; _]. rewrite <- app_assoc. split; reflexivity.
      * destruct (raises w _ (c_click _ 5000)) as [e |]; cbn;
          eexists [_; _; _]; rewrite <- !app_assoc; split; reflexivity.
    + eexists [_]. split; reflexivity.
  - unfold bind, goto, do_call, ret. cbn.
    destruct (raises w (trace s) (c_goto page0 url None t)); cbn;
      eexists [_]; split; reflexivity.
Qed.

(** A list of actions that runs to its end adds as many returned clicks as
    it has clicks; one that is cut short adds no more than it has clicks
    before its last action. *)
Lemma steps_count (w : world) (page0 : page) (l : list action) (s : st) :
  exists ext,
    trace (snd (for_each l (perform w page0) s)) = trace s ++ ext /\
    match fst (for_each l (perform w page0) s) with
    | Ret _ => clicks_returned ext = nclicks l
    | Raise _ => (clicks_returned ext <= nclicks (removelast l))%nat
    end.
Proof.
  revert s. induction l as [| a l IH]; intros s.
  - exists []. cbn. rewrite app_nil_r. auto.
  - cbn [for_each]. unfold bind.
    destruct (perform_count w page0 a s) as (e1 & Ht1 & Hc1).
    destruct (perform w page0 a s) as [[[] | e] s1]; cbn [fst snd] in *.
    + destruct (IH s1) as (e2 & Ht2 & Hc2).
      exists (e1 ++ e2). rewrite Ht2, Ht1, app_assoc. split; [reflexivity |].
      rewrite clicks_returned_app, Hc1.
      destruct (for_each l (perform w page0) s1) as [[[] | e] s2] eqn:Hrun; cbn [fst] in *.
      * rewrite Hc2. now destruct a.
      * destruct l as [| b l]; [discriminate Hrun |].
        change (removelast (a :: b :: l)) with (a :: removelast (b :: l)).
        revert Hc2. generalize (removelast (b :: l)). intros l' Hc2.
        unfold nclicks in *. destruct a; cbn [filter List.length]; lia.
    + exists e1. split; [exact Ht1 |]. rewrite Hc1. destruct a; lia.
Qed.

(** The script ends on its assertion or with fewer returned clicks than it
    has clicks. *)
Lemma script_count (w : world) (page0 : page) (s : st) :
  exists ext,
    trace (snd (script w page0 s)) = trace s ++ ext /\
    (fst (script w page0 s) = Raise (AssertionError assertion_message) \/
     (clicks_returned ext < nclicks steps)%nat).
Proof.
  rewrite script_phases. unfold bind.
  destruct (navigation_clicks_nothing w page0 s) as (e1 & Ht1 & _ & Hn).
  assert (H1 : clicks_returned e1 = 0%nat).
  { revert Hn. apply no_click_returned. intros [c [e |] | |]; cbn; try reflexivity.
    destruct c; cbn; congruence. }
  destruct (navigation w page0 s) as [[[] | e] s1]; cbn [fst snd] in *.
  - unfold after_ready, bind.
    destruct (steps_count w page0 steps s1) as (e2 & Ht2 & Hc2).
    destruct (for_each steps (perform w page0) s1) as [[[] | e] s2]; cbn [fst snd] in *.
    + exists (e1 ++ e2). cbn [assert_ raise bind fst snd].
      unfold raise. cbn [fst snd]. rewrite Ht2, Ht1, app_assoc. auto.
    + exists (e1 ++ e2). rewrite Ht2, Ht1, app_assoc. split; [reflexivity |].
      right. rewrite clicks_returned_app, H1. cbn in *. lia.
  - exists e1. split; [exact Ht1 |]. right. rewrite H1. cbn. lia.
Qed.

(** A run in which every click of the script returned left the body on the
    assertion. *)
Lemma all_clicks_then_assertion (w : world) :
  clicks_returned (run_trace w) = nclicks steps ->
  fst (body w init) = Raise (AssertionError assertion_message).
Proof.
  intros H.
  destruct (run_anatomy w) as (td & Ht & _ & Htd).
  assert (Hz : clicks_returned td = 0%nat).
  { generalize (torn_calls _ _ _ _ Htd). apply no_click_returned.
    intros [c [e |] | |]; cbn; try reflexivity. destruct c; cbn; congruence. }
  rewrite Ht, clicks_returned_app, Hz, Nat.add_0_r in H.
  pose proof (body_cases w) as Hcase.
  remember (body w init) as b eqn:Hb.
  destruct Hcase as [e ? | e ? | e ? | e ? | e ? | ?]; try discriminate H.
  fold script_start in *.
  destruct (script_count w (initial_page w) script_start) as (ext & Hext & [Ha | Hlt]).
  - exact Ha.
  - exfalso. rewrite Hext, clicks_returned_app in H. cbn in H, Hlt. lia.
Qed.

(** ** From the navigation to the first step *)

(** The first thing that happens after the readiness waits is the read of
    [context.pages] at line 49. *)
Lemma after_ready_reads_pages (w : world) (page0 : page) (s : st) :
  exists ext,
    trace (snd (after_ready w page0 s)) = trace s ++ ReadPages (pages w (trace s)) :: ext.
Proof.
  unfold after_ready, steps. cbn [for_each perform]. unfold interact.
  rewrite !bind_assoc. unfold bind at 1. unfold context_pages_last at 1.
  destruct (py_last (pages w (trace s))) as [p |].
  - match goal with
    | |- context [snd (?m ?s1)] =>
        assert (Hm : sat (only scripted) m)
    end.
    { pose proof (steps_scripted w page0). scripted_pieces. }
    match goal with
    | |- context [snd (?m ?s1)] => destruct (Hm s1) as (ext & Hext & _)
    end.
    exists ext. rewrite Hext. cbn. now rewrite <- app_assoc.
  - exists []. reflexivity.
Qed.

Lemma readiness_errors_only_app (tr1 tr2 : history) :
  readiness_errors_only (tr1 ++ tr2) = true ->
  readiness_errors_only tr1 = true /\ readiness_errors_only tr2 = true.
Proof.
  unfold readiness_errors_only. rewrite forallb_app. apply andb_prop.
Qed.

(** The loop of lines 41-45 waits on every frame, whatever the earlier
    waits raised, and hands over to what follows. *)
Lemma frame_loop (w : world) (k : unit -> M unit) (fs : list frame) (s : st) :
  readiness_errors_only
    (trace (snd (bind (for_each fs (fun f => wait_ready w (on_frame f))) k s))) = true ->
  exists waits s',
    bind (for_each fs (fun f => wait_ready w (on_frame f))) k s = k tt s' /\
    trace s' = trace s ++ waits /\
    map call_of waits = map (fun f => Some (ready_wait (on_frame f))) fs.
Proof.
  revert s. induction fs as [| f fs IH]; intros s H.
  - exists [], s. rewrite app_nil_r. auto.
  - cbn [for_each] in *. rewrite bind_assoc in *.
    unfold bind at 1 in H. unfold bind at 1.
    unfold wait_ready, try_except_Error, do_call in *. fold (ready_wait (on_frame f)) in *.
    destruct (raises w (trace s) (ready_wait (on_frame f))) as [e |] eqn:Hr.
    + destruct (is_async_api_Error e) eqn:He.
      * destruct (IH _ H) as (waits & s' & Hk & Ht & Hm).
        exists (Called (ready_wait (on_frame f)) (Some e) :: waits), s'.
        rewrite Hk, Ht. cbn. rewrite <- app_assoc, Hm. auto.
      * exfalso. cbn in H. apply readiness_errors_only_app in H. destruct H as [_ H].
        cbn in H. rewrite He in H. discriminate.
    + destruct (IH _ H) as (waits & s' & Hk & Ht & Hm).
      exists (Called (ready_wait (on_frame f)) None :: waits), s'.
      rewrite Hk, Ht. cbn. rewrite <- app_assoc, Hm. auto.
Qed.

(** From a committed navigation to the first interaction step. *)
Lemma committed_navigation (w : world) (page0 : page) (s : st) :
  raises w (trace s) (c_goto page0 base_url (Some "commit") 10000) = None ->
  readiness_errors_only (trace (snd (script w page0 s))) = true ->
  exists r0 fs waits ps ext,
    trace (snd (script w page0 s)) =
      trace s ++
      [ Called (c_goto page0 base_url (Some "commit") 10000) None;
        Called (ready_wait (on_page page0)) r0;
        ReadFrames page0 fs ] ++
      waits ++ ReadPages ps :: ext /\
    map call_of waits = map (fun f => Some (ready_wait (on_frame f))) fs.
Proof.
  intros Hgoto H. unfold script in *.
  fold (after_ready w page0) in *.
  unfold bind at 1 in H. unfold bind at 1. unfold goto, do_call in *.
  rewrite Hgoto in *.
  unfold bind at 1 in H. unfold bind at 1.
  unfold wait_ready at 1 in H. unfold wait_ready at 1.
  unfold try_except_Error, do_call in *. fold (ready_wait (on_page page0)) in *.
  set (s1 := log (Called (c_goto page0 base_url (Some "commit") 10000) None) s) in *.
  assert (Hcont : forall r0,
    readiness_errors_only
      (trace (snd ((fs <- page_frames w page0;;
                    for_each fs (fun f => wait_ready w (on_frame f));;
                    after_ready w page0)
                   (log (Called (ready_wait (on_page page0)) r0) s1)))) = true ->
    exists fs waits ps ext,
      trace (snd ((fs <- page_frames w page0;;
                   for_each fs (fun f => wait_ready w (on_frame f));;
                   after_ready w page0)
                  (log (Called (ready_wait (on_page page0)) r0) s1))) =
        trace s ++
        [ Called (c_goto page0 base_url (Some "commit") 10000) None;
          Called (ready_wait (on_page page0)) r0;
          ReadFrames page0 fs ] ++
        waits ++ ReadPages ps :: ext /\
      map call_of waits = map (fun f => Some (ready_wait (on_frame f))) fs).
  { intros r0 H0. unfold bind at 1 in H0. unfold bind at 1. unfold page_frames in *.
    destruct (frame_loop w _ _ _ H0) as (waits & s' & Hk & Ht & Hm).
    destruct (after_ready_reads_pages w page0 s') as (ext & Hext).
    eexists _, waits, _, ext. split; [| exact Hm].
    rewrite Hk, Hext, Ht. cbn. rewrite <- !app_assoc. reflexivity. }
  destruct (raises w (trace s1) (ready_wait (on_page page0))) as [e |] eqn:Hr.
  - destruct (is_async_api_Error e) eqn:He.
    + destruct (Hcont _ H) as (fs & waits & ps & ext & Ht & Hm). eauto 10.
    + exfalso. cbn in H. apply readiness_errors_only_app in H. destruct H as [_ H].
      cbn in H. rewrite He in H. discriminate.
  - destruct (Hcont _ H) as (fs & waits & ps & ext & Ht & Hm). eauto 10.
Qed.

(** ** The answer of the endpoint *)

(** The value of [page.goto] is dropped, at line 32 and at line 55. *)
Lemma goto_result_dropped {B} (w : world) f p url wu t (k k' : M B) :
  (forall s, k s = k' s) ->
  forall s,
    bind (goto (with_response w f) p url wu t) (fun _ => k) s =
    bind (goto w p url wu t) (fun _ => k') s.
Proof.
  intros Hk s. unfold bind, goto, do_call. cbn.
  destruct (raises w (trace s) (c_goto p url wu t)); [reflexivity | apply Hk].
Qed.

Lemma perform_ignores_response (w : world) f page0 (a : action) (s : st) :
  perform (with_response w f) page0 a s = perform w page0 a s.
Proof.
  destruct a as [xpath | url t]; cbn [perform]; [reflexivity |].
  now apply goto_result_dropped.
Qed.

Lemma script_ignores_response (w : world) f page0 (s : st) :
  script (with_response w f) page0 s = script w page0 s.
Proof.
  unfold script. apply goto_result_dropped. clear s.
  apply bind_ext; [reflexivity | intros _].
  apply bind_ext; [reflexivity | intros fs].
  apply bind_ext; [reflexivity | intros _].
  apply bind_ext; [| reflexivity].
  apply for_each_ext. apply perform_ignores_response.
Qed.

(** Nothing a run does depends on what the endpoint answered. *)
Lemma run_ignores_response (w : world) f :
  run_test (with_response w f) = run_test w.
Proof.
  unfold run_test, try_finally.
  replace (body (with_response w f) init) with (body w init); [reflexivity |].
  unfold body. symmetry.
  apply bind_ext; [reflexivity | intros _].
  unfold scenario. apply bind_ext; [reflexivity |].
  apply script_ignores_response.
Qed.

(** ** Release of the session (C1, C3, C9) *)

(** C1, amended.  In every run in which no call of the [finally] block
    raises, and whatever the body of the [try] did, the close of every
    resource that was acquired is called exactly once and no other close is
    called. *)
Theorem acquired_resources_closed_once (w : world) :
  teardown_quiet (run_trace w) = true ->
  forall x,
    close_attempts x (run_trace w) = if acquired x (run_trace w) then 1%nat else 0%nat.
Proof.
  intros Hq x. now apply quiet_release.
Qed.

Lemma acquired_resources_closed_once_witness :
  teardown_quiet (run_trace interrupted) = true /\
  acquired the_browser (run_trace interrupted) = true /\
  close_attempts the_browser (run_trace interrupted) = 1%nat.
Proof.
  split; [reflexivity |]. split; [reflexivity |].
  apply (acquired_resources_closed_once interrupted eq_refl the_browser).
Defined.

(** C1 as stated fails: when [context.close()] raises, the browser and the
    driver were acquired and are never closed. *)
Lemma release_skipped_after_failed_close :
  ~ released_once context_close_fails.
Proof.
  intros H. specialize (H the_browser eq_refl). vm_compute in H. discriminate.
Qed.



(** C9, amended.  The close of each of the three resources is called once
    if the resource was acquired and no teardown call placed before it
    raised, and is not called otherwise.  In particular no close is ever
    called on a resource that was not acquired, whichever acquisition step
    failed. *)
Theorem close_called_iff_acquired_and_reached (w : world) (x : resource) :
  close_attempts x (run_trace w) =
  if acquired x (run_trace w) && negb (blocked x (run_trace w)) then 1%nat else 0%nat.
Proof.
  destruct (run_counts w x) as (td & _ & Hc & Ha & Hr & _ & Htd).
  rewrite Hc, Ha, (blocked_in_run w x td Hr).
  apply (torn_count _ _ _ _ Htd).
Qed.

(** C9 as stated fails: when the context cannot be created and the close
    of the browser raises, the driver was acquired and is never stopped. *)
Lemma partial_acquisition_not_released :
  ~ closed_iff_acquired no_context_then_browser_close_fails.
Proof.
  intros H. specialize (H the_driver). destruct H as [_ H].
  specialize (H eq_refl). vm_compute in H. discriminate.
Qed.

(** ** The verdict (C4) *)

(** C4, amended.  No run in which the nine clicks of the script all return,
    that is, in which every scripted interaction step completes, passes;
    and if moreover no call of the [finally] block raises, the outcome is
    the failure of the final assertion, whose message says that the
    expected result is unknown. *)
Theorem completed_script_fails_on_assertion (w : world) :
  clicks_returned (run_trace w) = 9%nat ->
  outcome w <> passed /\
  (teardown_quiet (run_trace w) = true ->
   outcome w = failed (AssertionError assertion_message)).
Proof.
  intros Hc. split; [apply never_passed |]. intros Hq.
  destruct (run_counts w the_context) as (td & _ & _ & _ & _ & Hq' & Htd).
  apply outcome_failed.
  rewrite (torn_quiet _ _ _ _ Htd) by congruence.
  now apply all_clicks_then_assertion.
Qed.

Lemma completed_script_fails_on_assertion_witness :
  clicks_returned (run_trace calm) = 9%nat /\
  outcome calm <> passed /\
  (teardown_quiet (run_trace calm) = true ->
   outcome calm = failed (AssertionError assertion_message)).
Proof.
  split; [reflexivity |].
  apply (completed_script_fails_on_assertion calm eq_refl).
Defined.

(** C4 as stated fails: the nine clicks return, [pw.stop()] raises, and
    the outcome is that error, not the assertion failure. *)
Lemma completed_script_masked_by_teardown :
  clicks_returned (run_trace stop_fails) = 9%nat /\
  outcome stop_fails <> failed (AssertionError assertion_message).
Proof.
  split; [reflexivity |]. vm_compute. discriminate.
Qed.

(** ** Navigation and readiness (C5) *)

(** C5.  Once the navigation of line 32 has committed, and as long as
    what the readiness waits raise are Playwright errors (timeouts, or
    errors such as that of a frame detached during its wait), the run goes
    on: after the wait on the page come one wait per frame of [page.frames],
    each attempted whatever the earlier ones raised, none at all when the
    page has no frames, and then the first statement of the first
    interaction step, the read of [context.pages] at line 49. *)
Theorem readiness_failures_do_not_stop_the_run (w : world) :
  In (Called (c_goto (initial_page w) base_url (Some "commit") 10000) None) (run_trace w) ->
  readiness_errors_only (run_trace w) = true ->
  exists r0 fs waits ps post,
    run_trace w =
      trace script_start ++
      [ Called (c_goto (initial_page w) base_url (Some "commit") 10000) None;
        Called (ready_wait (on_page (initial_page w))) r0;
        ReadFrames (initial_page w) fs ] ++
      waits ++ ReadPages ps :: post /\
    map call_of waits = map (fun f => Some (ready_wait (on_frame f))) fs.
Proof.
  intros Hin Hre.
  apply in_split in Hin. destruct Hin as (pre & post & Hsplit).
  destruct (scripted_event_in_script w pre post _ Hsplit eq_refl)
    as (ext & td & pre2 & post1 & Hbody & Hext & Ht & _ & _ & Hext2 & _).
  rewrite Ht in Hre. apply readiness_errors_only_app in Hre. destruct Hre as [Hre _].
  rewrite Ht. rewrite Hbody in *.
  destruct (raises w (trace script_start)
              (c_goto (initial_page w) base_url (Some "commit") 10000)) as [e |] eqn:Hgoto.
  - exfalso. revert Hext. unfold script, bind at 1, goto, do_call. rewrite Hgoto. cbn.
    intros Hext. injection Hext as Hext. rewrite <- Hext in Hext2.
    destruct pre2 as [| ? pre2]; [discriminate | destruct pre2; discriminate].
  - destruct (committed_navigation w (initial_page w) script_start Hgoto Hre)
      as (r0 & fs & waits & ps & ext' & Htr & Hm).
    exists r0, fs, waits, ps, (ext' ++ td). split; [| exact Hm].
    rewrite Htr. rewrite <- !app_assoc. reflexivity.
Qed.

Lemma readiness_failures_do_not_stop_the_run_witness :
  In (Called (c_goto (initial_page slow_page) base_url (Some "commit") 10000) None)
     (run_trace slow_page) /\
  readiness_errors_only (run_trace slow_page) = true /\
  exists r0 fs waits ps post,
    run_trace slow_page =
      trace script_start ++
      [ Called (c_goto (initial_page slow_page) base_url (Some "commit") 10000) None;
        Called (ready_wait (on_page (initial_page slow_page))) r0;
        ReadFrames (initial_page slow_page) fs ] ++
      waits ++ ReadPages ps :: post /\
    map call_of waits = map (fun f => Some (ready_wait (on_frame f))) fs.
Proof.
  assert (Hin : In (Called (c_goto (initial_page slow_page) base_url (Some "commit") 10000)
                      None) (run_trace slow_page)).
  { vm_compute. do 5 right. left. reflexivity. }
  split; [exact Hin |]. split; [reflexivity |].
  apply (readiness_failures_do_not_stop_the_run slow_page Hin eq_refl).
Defined.

(** ** Interaction steps (C6, C7, C10) *)

(** C6, amended.  A click whose target is not resolved within its 5000 ms
    raises a timeout that nothing catches: the only events after it are
    calls of the [finally] block, so the step is not retried and no later
    step runs, and the run does not pass.  If moreover no call of the
    [finally] block raises, the outcome is that timeout and the close of
    each of the three resources is called once. *)
Theorem click_timeout_is_terminal (w : world) pre l t post :
  run_trace w = pre ++ Called (c_click l t) (Some TimeoutError) :: post ->
  t = 5000 /\
  forallb (attempt_of is_teardown_call) post = true /\
  outcome w <> passed /\
  (teardown_quiet (run_trace w) = true ->
   outcome w = failed TimeoutError /\ forall x, close_attempts x post = 1%nat).
Proof.
  intros H.
  destruct (click_in_run w pre l t _ post H) as (_ & _ & _ & _ & _ & Ht).
  destruct (throwing_click_ends_body w pre l t _ post H)
    as (td & -> & Hrun & Hbody & Htd & Hacq).
  repeat apply conj; auto.
  - apply (torn_calls _ _ _ _ Htd).
  - apply never_passed.
  - intros Hq. split.
    + apply outcome_failed. rewrite <- Hbody. apply (torn_quiet _ _ _ _ Htd).
      destruct (run_counts w the_context) as (td' & Hrun' & _ & _ & _ & Hq' & _).
      rewrite Hrun in Hrun'. apply app_inv_head in Hrun'. subst td'. congruence.
    + intros x. pose proof (quiet_release w x Hq) as Hx. rewrite Hacq in Hx.
      destruct (run_counts w x) as (td' & Hrun' & Hc & _).
      rewrite Hrun in Hrun'. apply app_inv_head in Hrun'. subst td'. congruence.
Qed.

Lemma click_timeout_is_terminal_witness :
  run_trace link_missing =
    firstn 11 (run_trace link_missing) ++
    Called (c_click (Locator 0%nat map_view_link 0) 5000) (Some TimeoutError) ::
    skipn 12 (run_trace link_missing) /\
  teardown_quiet (run_trace link_missing) = true /\
  outcome link_missing = failed TimeoutError /\
  forall x, close_attempts x (skipn 12 (run_trace link_missing)) = 1%nat.
Proof.
  split; [reflexivity |]. split; [reflexivity |].
  apply (click_timeout_is_terminal link_missing
           (firstn 11 (run_trace link_missing)) (Locator 0%nat map_view_link 0) 5000
           (skipn 12 (run_trace link_missing)) eq_refl).
  reflexivity.
Defined.

(** C6 as stated fails: the first click times out, [context.close()]
    raises, and the browser and the driver are left open; the outcome is
    the error of the close, not the timeout. *)
Lemma timeout_then_failed_close_leaves_session_open :
  In (Called (c_click (Locator 0%nat map_view_link 0) 5000) (Some TimeoutError))
     (run_trace link_missing_then_context_close_fails) /\
  ~ released_once link_missing_then_context_close_fails /\
  outcome link_missing_then_context_close_fails = failed closed_error.
Proof.
  split; [| split].
  - vm_compute. do 11 right. left. reflexivity.
  - intros H. specialize (H the_browser eq_refl). vm_compute in H. discriminate.
  - reflexivity.
Qed.

(** C7.  Every click of a run comes right after a settling delay of
    3000 ms, itself right after a read of [context.pages]; the list read
    is the context's list of pages at that point of the run, and the click
    goes to its last page.  So the page is looked up anew in every step. *)
Theorem click_targets_current_last_page (w : world) pre l t r post :
  run_trace w = pre ++ Called (c_click l t) r :: post ->
  exists before ps p,
    pre = before ++ [ReadPages ps; Called (c_wait_for_timeout p 3000) None] /\
    ps = pages w before /\
    py_last ps = Some (loc_page l).
Proof.
  intros H. destruct (click_in_run w pre l t r post H) as (mid & ps & -> & Hps & Hl & _).
  exists (trace script_start ++ mid), ps, (initial_page w). auto.
Qed.

Lemma click_targets_current_last_page_witness :
  run_trace popup =
    firstn 15 (run_trace popup) ++
    Called (c_click (Locator 1%nat map_view_link 0) 5000) None ::
    skipn 16 (run_trace popup) /\
  exists before ps p,
    firstn 15 (run_trace popup) =
      before ++ [ReadPages ps; Called (c_wait_for_timeout p 3000) None] /\
    ps = pages popup before /\
    py_last ps = Some 1%nat.
Proof.
  split; [reflexivity |].
  apply (click_targets_current_last_page popup
           (firstn 15 (run_trace popup)) (Locator 1%nat map_view_link 0) 5000 None
           (skipn 16 (run_trace popup)) eq_refl).
Defined.

(** C10, amended.  In every step the settling delay is awaited on the
    page that [context.new_page()] returned at line 29, and the click goes
    to the last page of [context.pages] as read at the start of the step.
    The two are the same page exactly when that last page is the initial
    one: so they are whenever the context then holds no other page,
    whatever pages were opened before, and they are not when the list
    read ends with another page. *)
Theorem delay_on_initial_page_click_on_last (w : world) pre l t r post :
  run_trace w = pre ++ Called (c_click l t) r :: post ->
  exists mid ps,
    pre = (acquisition ++ Called c_new_page None :: mid) ++
          [ReadPages ps; Called (c_wait_for_timeout (opened w acquisition) 3000) None] /\
    ps = pages w (acquisition ++ Called c_new_page None :: mid) /\
    py_last ps = Some (loc_page l) /\
    (loc_page l = opened w acquisition <-> py_last ps = Some (opened w acquisition)) /\
    ((forall p, In p ps -> p = opened w acquisition) ->
     loc_page l = opened w acquisition) /\
    (forall ps' p, ps = ps' ++ [p] -> p <> opened w acquisition ->
                   loc_page l <> opened w acquisition).
Proof.
  intros H. destruct (click_in_run w pre l t r post H) as (mid & ps & -> & Hps & Hl & _).
  exists mid, ps. repeat apply conj; auto.
  - intros E. now rewrite Hl, E.
  - intros E. rewrite Hl in E. now injection E.
  - intros Hall. apply Hall. apply py_last_in. exact Hl.
  - intros ps' p Hsplit Hp E. apply Hp. rewrite <- E.
    rewrite Hsplit, py_last_app in Hl. now injection Hl.
Qed.

Lemma delay_on_initial_page_click_on_last_witness :
  run_trace popup =
    firstn 18 (run_trace popup) ++
    Called (c_click (Locator 1%nat root_div 0) 5000) None ::
    skipn 19 (run_trace popup) /\
  exists mid ps,
    firstn 18 (run_trace popup) =
      (acquisition ++ Called c_new_page None :: mid) ++
      [ReadPages ps; Called (c_wait_for_timeout (opened popup acquisition) 3000) None] /\
    ps = pages popup (acquisition ++ Called c_new_page None :: mid) /\
    py_last ps = Some 1%nat /\
    (1%nat = opened popup acquisition <-> py_last ps = Some (opened popup acquisition)) /\
    ((forall p, In p ps -> p = opened popup acquisition) ->
     1%nat = opened popup acquisition) /\
    (forall ps' p, ps = ps' ++ [p] -> p <> opened popup acquisition ->
                   1%nat <> opened popup acquisition).
Proof.
  split; [reflexivity |].
  apply (delay_on_initial_page_click_on_last popup
           (firstn 18 (run_trace popup)) (Locator 1%nat root_div 0) 5000 None
           (skipn 19 (run_trace popup)) eq_refl).
Defined.

(** C10 as stated fails: the first click opens a second page, the second
    click closes it, and the third step delays and clicks on the initial
    page, although the second step read a list with another page in it. *)
Lemma same_page_again_after_popup_closed :
  ~ same_page_only_without_other_pages popup_closed.
Proof.
  intros H.
  assert (Hrun : run_trace popup_closed =
                 firstn 18 (run_trace popup_closed) ++
                 Called (c_click (Locator 0%nat root_div 0) 5000) None ::
                 skipn 19 (run_trace popup_closed)) by (vm_compute; reflexivity).
  assert (Hread : In (ReadPages [0%nat; 1%nat]) (firstn 18 (run_trace popup_closed))).
  { vm_compute. do 13 right. left. reflexivity. }
  specialize (H _ _ _ _ _ Hrun eq_refl [0%nat; 1%nat] 1%nat Hread
                (or_intror (or_introl eq_refl))).
  discriminate H.
Qed.

(** ** What the endpoint answers (C2, C8) *)

(** C2.  What the endpoint answered plays no part in a run: with any list
    of records in place of the answer's, the run is the same, event for
    event and in its result.  With an issue 5800 km away in the answer to
    a query of radius 5 km, the outcome is the failure of the final
    assertion, as with no issue at all; no failure names the record. *)
Theorem records_never_examined :
  (forall w recs, run_test (with_records w recs) = run_test w) /\
  run_test outlier = run_test calm /\
  outcome outlier = failed (AssertionError assertion_message).
Proof.
  split; [| split; reflexivity].
  intros w recs. apply run_ignores_response.
Qed.

(** C8.  The time the endpoint took plays no part in a run either: with
    any duration in place of the answer's, the run is the same, event for
    event and in its result, so nothing of it is reported. *)
Theorem elapsed_never_reported (w : world) (ms : Z) :
  run_test (with_elapsed w ms) = run_test w.
Proof. apply run_ignores_response. Qed.

(** ** Further properties of the run *)

(** An event of the body that throws is the last of the body. *)
Lemma thrown_is_terminal (w : world) pre ev e post :
  run_trace w = pre ++ ev :: post ->
  attempt_of is_teardown_call ev = false ->
  throws ev = Some e ->
  forallb (attempt_of is_teardown_call) post = true /\
  fst (body w init) = Raise e /\
  (teardown_quiet (run_trace w) = true -> outcome w = failed e).
Proof.
  intros H Hev Hthrows.
  destruct (run_counts w the_context) as (td & Ht & _ & _ & _ & Hq & Htd).
  pose proof (tried_ends _ _ (body_tried w)) as He.
  assert (Hntd : ~ In ev td).
  { apply not_in_teardown; [apply (torn_calls _ _ _ _ Htd) | exact Hev]. }
  rewrite Ht in H. destruct (split_behind _ _ _ _ _ H Hntd) as (post1 & Hb & ->).
  destruct (ends_on_throw _ _ _ _ _ _ He Hb) as [-> Hr]; [congruence |].
  assert (Hbody : fst (body w init) = Raise e).
  { rewrite Hthrows in Hr. destruct (fst (body w init)); cbn in Hr; congruence. }
  repeat apply conj.
  - apply (torn_calls _ _ _ _ Htd).
  - exact Hbody.
  - intros Hquiet. apply outcome_failed. rewrite <- Hbody.
    apply (torn_quiet _ _ _ _ Htd). congruence.
Qed.

(** X1.  Nothing in the body of the [try] catches an exception, except
    the readiness waits for Playwright errors: whichever call raises
    (or the read of [context.pages[-1]] on an empty list), only calls of
    the [finally] block follow it, the body ends with that exception, and
    it is the outcome of the run when no call of the [finally] block
    raises. *)
Theorem uncaught_exception_ends_the_script (w : world) pre ev e post :
  run_trace w = pre ++ ev :: post ->
  attempt_of is_teardown_call ev = false ->
  throws ev = Some e ->
  forallb (attempt_of is_teardown_call) post = true /\
  fst (body w init) = Raise e /\
  (teardown_quiet (run_trace w) = true -> outcome w = failed e).
Proof. apply thrown_is_terminal. Qed.

Lemma uncaught_exception_ends_the_script_witness :
  run_trace endpoint_down =
    firstn 12 (run_trace endpoint_down) ++
    Called (c_goto 0%nat api_url None 10000) (Some (Error "net::ERR_CONNECTION_REFUSED")) ::
    skipn 13 (run_trace endpoint_down) /\
  forallb (attempt_of is_teardown_call) (skipn 13 (run_trace endpoint_down)) = true /\
  outcome endpoint_down = failed (Error "net::ERR_CONNECTION_REFUSED").
Proof.
  split; [reflexivity |].
  destruct (uncaught_exception_ends_the_script endpoint_down
              (firstn 12 (run_trace endpoint_down))
              (Called (c_goto 0%nat api_url None 10000)
                 (Some (Error "net::ERR_CONNECTION_REFUSED")))
              (Error "net::ERR_CONNECTION_REFUSED")
              (skipn 13 (run_trace endpoint_down)) eq_refl eq_refl eq_refl)
    as (H1 & _ & H2).
  split; [exact H1 | exact (H2 eq_refl)].
Defined.

(** X2.  No run passes: whatever the browser and the application do,
    [run_test] ends with an exception. *)
Theorem run_never_passes (w : world) :
  outcome w <> passed /\ exists e, outcome w = failed e.
Proof.
  split; [apply never_passed |].
  destruct (run_raises w) as (e & He). exists e. now apply outcome_failed.
Qed.

(** X5.  The exception a run ends with is the assertion failure of line
    103, the [IndexError] of [context.pages[-1]], or an exception that a
    call to the driver raised in that run: the script raises nothing else
    of its own. *)
Theorem outcome_comes_from_the_run (w : world) :
  exists e,
    outcome w = failed e /\
    (e = AssertionError assertion_message \/
     (e = IndexError /\ In (ReadPages []) (run_trace w)) \/
     exists c, In (Called c (Some e)) (run_trace w)).
Proof.
  destruct (run_anatomy w) as (td & Ht & Hb & Htd).
  destruct (teardown_quiet td) eqn:Hq.
  - pose proof (torn_quiet _ _ _ _ Htd Hq) as Hr.
    pose proof (tried_ends _ _ Hb) as He.
    pose proof (tried_fails _ _ Hb) as Hf.
    destruct (fst (body w init)) as [[] | e] eqn:Hbody; [now elim Hf |].
    exists e. split; [now apply outcome_failed |].
    cbn [raised] in He.
    remember (trace (snd (body w init))) as btr eqn:Hbtr.
    remember (Some e) as o eqn:Ho.
    destruct He as [| | h pre ev e' Hpre Hev]; [discriminate | left; congruence |].
    injection Ho as ->.
    assert (Hin : In ev (run_trace w)).
    { rewrite Ht. apply in_or_app. left. apply in_or_app. right. now left. }
    destruct ev as [c [e0 |] | ps | p fs]; cbn in Hev; try discriminate.
    + right. right. exists c.
      replace e with e0; [exact Hin |].
      destruct c; try congruence.
      destruct (is_async_api_Error e0); congruence.
    + destruct c; discriminate.
    + right. left. destruct ps as [| p ps].
      * split; [| exact Hin]. cbn in Hev. congruence.
      * exfalso. unfold py_last in Hev.
        destruct (rev (p :: ps)) eqn:Hrev; [| discriminate].
        apply (f_equal (@List.length _)) in Hrev. rewrite length_rev in Hrev. discriminate.
  - destruct (noisy_teardown td Hq) as (pre & ev & post & e & Htd' & He).
    destruct (torn_raise _ _ _ _ Htd pre ev post e Htd' He) as [_ Hr].
    exists e. split; [now apply outcome_failed |].
    right. right. destruct ev as [c r | |]; try discriminate. cbn in He. subst r.
    exists c. rewrite Ht, Htd'. apply in_or_app. right. apply in_or_app. right. now left.
Qed.

(** X6.  When [context.pages] is empty at the start of a step, the step
    raises [IndexError]: neither the settling delay nor the click is
    attempted, no later step runs, and the run fails with that error when
    no call of the [finally] block raises. *)
Theorem empty_pages_end_the_script (w : world) pre post :
  run_trace w = pre ++ ReadPages [] :: post ->
  forallb (attempt_of is_teardown_call) post = true /\
  (teardown_quiet (run_trace w) = true -> outcome w = failed IndexError).
Proof.
  intros H.
  destruct (thrown_is_terminal w pre _ IndexError post H eq_refl eq_refl) as (H1 & _ & H2).
  auto.
Qed.

Lemma empty_pages_end_the_script_witness :
  run_trace no_pages =
    firstn 9 (run_trace no_pages) ++ ReadPages [] :: skipn 10 (run_trace no_pages) /\
  skipn 10 (run_trace no_pages) =
    [Called c_context_close None; Called c_browser_close None; Called c_stop None] /\
  outcome no_pages = failed IndexError.
Proof.
  split; [reflexivity |]. split; [reflexivity |].
  apply (empty_pages_end_the_script no_pages
           (firstn 9 (run_trace no_pages)) (skipn 10 (run_trace no_pages)) eq_refl).
  reflexivity.
Defined.

(** X7.  The readiness waits catch Playwright errors only: an exception
    of another kind raised by [wait_for_load_state] (a cancellation, an
    interrupt) is not swallowed; it ends the script, only calls of the
    [finally] block follow, and it is the outcome of the run when none of
    them raises. *)
Theorem other_exceptions_leave_the_readiness_wait (w : world) pre t state ms e post :
  run_trace w = pre ++ Called (c_wait_for_load_state t state ms) (Some e) :: post ->
  is_async_api_Error e = false ->
  forallb (attempt_of is_teardown_call) post = true /\
  (teardown_quiet (run_trace w) = true -> outcome w = failed e).
Proof.
  intros H He.
  destruct (thrown_is_terminal w pre _ e post H eq_refl) as (H1 & _ & H2).
  - cbn. now rewrite He.
  - auto.
Qed.

Lemma other_exceptions_leave_the_readiness_wait_witness :
  run_trace cancelled_while_loading =
    firstn 6 (run_trace cancelled_while_loading) ++
    Called (c_wait_for_load_state (on_page 0%nat) "domcontentloaded" 3000)
      (Some (OtherException "CancelledError")) ::
    skipn 7 (run_trace cancelled_while_loading) /\
  is_async_api_Error (OtherException "CancelledError") = false /\
  outcome cancelled_while_loading = failed (OtherException "CancelledError").
Proof.
  split; [reflexivity |]. split; [reflexivity |].
  apply (other_exceptions_leave_the_readiness_wait cancelled_while_loading
           (firstn 6 (run_trace cancelled_while_loading))
           (on_page 0%nat) "domcontentloaded" 3000 (OtherException "CancelledError")
           (skipn 7 (run_trace cancelled_while_loading)) eq_refl eq_refl).
  reflexivity.
Defined.

(** X8.  Nothing is navigated, waited for or clicked on a session that is
    not complete: every event of lines 32-104 comes after the driver was
    started, the browser launched, the context created, its default
    timeout set to 5000 ms and the page opened, all without raising. *)
Theorem scripted_events_need_the_whole_session (w : world) pre ev post :
  run_trace w = pre ++ ev :: post ->
  scripted ev = true ->
  (exists mid, pre = acquisition ++ Called c_new_page None :: mid) /\
  forall x, acquired x pre = true.
Proof.
  intros H Hev.
  destruct (scripted_event_in_script w pre post ev H Hev)
    as (ext & td & pre2 & post1 & _ & _ & _ & _ & -> & _ & _).
  split.
  - exists pre2. reflexivity.
  - intros x. unfold acquired. rewrite existsb_app. destruct x; reflexivity.
Qed.

Lemma scripted_events_need_the_whole_session_witness :
  run_trace calm =
    firstn 5 (run_trace calm) ++
    Called (c_goto 0%nat base_url (Some "commit") 10000) None ::
    skipn 6 (run_trace calm) /\
  (exists mid, firstn 5 (run_trace calm) = acquisition ++ Called c_new_page None :: mid) /\
  forall x, acquired x (firstn 5 (run_trace calm)) = true.
Proof.
  split; [reflexivity |].
  apply (scripted_events_need_the_whole_session calm
           (firstn 5 (run_trace calm))
           (Called (c_goto 0%nat base_url (Some "commit") 10000) None)
           (skipn 6 (run_trace calm)) eq_refl eq_refl).
Defined.

(** ** The parts of a run *)

Lemma after_ready_trace (w : world) (page0 : page) (s : st) :
  snd (after_ready w page0 s) = snd (for_each steps (perform w page0) s).
Proof.
  unfold after_ready, bind.
  destruct (for_each steps (perform w page0) s) as [[[] | e] s1]; reflexivity.
Qed.

Lemma not_scripted_before_script (w : world) (r : res unit) (s : st) :
  body_case w (r, s) ->
  forallb (fun ev => negb (scripted ev)) (trace s) = true \/
  (r, s) = script w (initial_page w) script_start.
Proof.
  intros H. inversion H; subst; auto.
Qed.

(** A run is made of the events of the acquisition, those of the
    navigation, those of the steps and those of the [finally] block. *)
Lemma run_parts (w : world) :
  exists acq nav stp td,
    run_trace w = acq ++ nav ++ stp ++ td /\
    forallb (fun ev => negb (scripted ev)) acq = true /\
    (nav = [] \/ exists p0 s, trace (snd (navigation w p0 s)) = trace s ++ nav) /\
    (stp = [] \/
     exists p0 s, trace (snd (for_each steps (perform w p0) s)) = trace s ++ stp) /\
    forallb (attempt_of is_teardown_call) td = true.
Proof.
  destruct (run_anatomy w) as (td & Ht & _ & Htd).
  pose proof (torn_calls _ _ _ _ Htd) as Hcalls.
  pose proof (body_cases w) as Hcase.
  destruct (body w init) as [rb sb] eqn:Hbody. cbn [snd] in Ht.
  destruct (not_scripted_before_script w rb sb Hcase) as [Hacq | Hscript].
  - exists (trace sb), [], [], td. rewrite !app_nil_l. repeat apply conj; auto.
  - assert (Hsb : sb = snd (script w (initial_page w) script_start)) by now rewrite <- Hscript.
    exists (trace script_start).
    rewrite script_phases in Hsb. unfold bind in Hsb.
    destruct (navigation_clicks_nothing w (initial_page w) script_start) as (e1 & Ht1 & _).
    destruct (navigation w (initial_page w) script_start) as [[[] | e] s1] eqn:Hnav;
      cbn [snd] in *.
    + rewrite after_ready_trace in Hsb.
      destruct (steps_count w (initial_page w) steps s1) as (e2 & Ht2 & _).
      exists e1, e2, td. rewrite Ht, Hsb, Ht2, Ht1, <- !app_assoc.
      repeat apply conj; auto.
      * right. exists (initial_page w), script_start. now rewrite Hnav.
      * right. exists (initial_page w), s1. exact Ht2.
    + exists e1, [], td. rewrite Ht, Hsb, Ht1, <- !app_assoc.
      repeat apply conj; auto.
      right. exists (initial_page w), script_start. now rewrite Hnav.
Qed.

Ltac only_pieces :=
  repeat first
    [ assumption
    | reflexivity
    | apply sat_goto; intros; now apply only_one
    | apply sat_wait_ready; intros; now apply only_one
    | apply sat_page_frames; intros; now apply only_one
    | apply sat_pages_last; intros; now apply only_one
    | apply sat_do_call; intros; now apply only_one
    | apply sat_for_each
    | apply sat_bind
    | apply sat_ret
    | intro ].

(** A test that the events of the navigation and of the steps pass, and
    that the events outside the script pass, is passed by the whole run. *)
Lemma run_only (w : world) (allowed : event -> bool) :
  (forall ev, scripted ev = false -> allowed ev = true) ->
  (forall p0, sat (only allowed) (navigation w p0)) ->
  (forall p0, sat (only allowed) (for_each steps (perform w p0))) ->
  forallb allowed (run_trace w) = true.
Proof.
  intros Hout Hnav Hstp.
  destruct (run_parts w) as (acq & nav & stp & td & -> & Hacq & Hn & Hs & Htd).
  rewrite !forallb_app. repeat (apply andb_true_intro; split).
  - revert Hacq. apply forallb_weaken. intros ev Hev. apply Hout.
    now destruct (scripted ev).
  - destruct Hn as [-> | (p0 & s & Hn)]; [reflexivity |].
    destruct (Hnav p0 s) as (ext & Hext & _ & Hall).
    rewrite Hn in Hext. apply app_inv_head in Hext. now subst ext.
  - destruct Hs as [-> | (p0 & s & Hs)]; [reflexivity |].
    destruct (Hstp p0 s) as (ext & Hext & _ & Hall).
    rewrite Hs in Hext. apply app_inv_head in Hext. now subst ext.
  - revert Htd. apply forallb_weaken. intros ev Hev. apply Hout.
    destruct ev as [[] |? |]; try reflexivity; discriminate.
Qed.

(** X3.  The [asyncio.sleep(5)] of line 104 is dead code: it comes after
    [assert False], and no run ever calls it. *)
Theorem sleep_is_never_called (w : world) :
  forallb (fun ev => negb (attempt_of is_sleep ev)) (run_trace w) = true.
Proof.
  pose proof (only_sequential (fun ev => negb (attempt_of is_sleep ev))) as HS.
  apply run_only.
  - intros [[] |? |]; cbn; congruence.
  - intros p0. unfold navigation. only_pieces.
  - intros p0. apply sat_steps; unfold interact; only_pieces.
Qed.

(** ** The order of the actions *)

Lemma attempts_app (tr1 tr2 : history) :
  attempts (tr1 ++ tr2) = attempts tr1 ++ attempts tr2.
Proof. apply flat_map_app. Qed.

Lemma attempts_none (tr : history) :
  forallb (fun ev => match attempted ev with None => true | Some _ => false end) tr = true ->
  attempts tr = [].
Proof.
  induction tr as [| ev tr IH]; cbn; [reflexivity |].
  destruct (attempted ev); [discriminate |]. exact IH.
Qed.

Lemma perform_attempts (w : world) (page0 : page) (a : action) (s : st) :
  exists ext,
    trace (snd (perform w page0 a s)) = trace s ++ ext /\
    match fst (perform w page0 a s) with
    | Ret _ => attempts ext = [a]
    | Raise _ => attempts ext = [a] \/ attempts ext = []
    end.
Proof.
  destruct a as [xpath | url t]; cbn [perform].
  - unfold interact, bind, context_pages_last, do_call. cbn.
    destruct (py_last (pages w (trace s))) as [p |]; cbn.
    + destruct (raises w _ (c_wait_for_timeout page0 3000)) as [e |]; cbn.
      * eexists [_; _]. rewrite <- app_assoc. split; [reflexivity | now right].
      * destruct (raises w _ (c_click _ 5000)) as [e |]; cbn;
          eexists [_; _; _]; rewrite <- !app_assoc; (split; [reflexivity |]);
          [now left | reflexivity].
    + eexists [_]. split; [reflexivity | now right].
  - unfold bind, goto, do_call, ret. cbn.
    destruct (raises w (trace s) (c_goto page0 url None t)); cbn;
      eexists [_]; (split; [reflexivity |]); [now left | reflexivity].
Qed.

(** The actions attempted by a list of actions are a prefix of the list,
    and the whole list when it runs to its end. *)
Lemma steps_attempts (w : world) (page0 : page) (l : list action) (s : st) :
  exists ext rest,
    trace (snd (for_each l (perform w page0) s)) = trace s ++ ext /\
    l = attempts ext ++ rest /\
    (raised (fst (for_each l (perform w page0) s)) = None -> rest = []).
Proof.
  revert s. induction l as [| a l IH]; intros s.
  - exists [], []. cbn. rewrite app_nil_r. auto.
  - cbn [for_each]. unfold bind.
    destruct (perform_attempts w page0 a s) as (e1 & Ht1 & Ha).
    destruct (perform w page0 a s) as [[[] | e] s1]; cbn [fst snd] in *.
    + destruct (IH s1) as (e2 & rest & Ht2 & Hl & Hr).
      exists (e1 ++ e2), rest. rewrite Ht2, Ht1, app_assoc, attempts_app, Ha.
      repeat apply conj; auto. cbn. now rewrite <- Hl.
    + destruct Ha as [Ha | Ha].
      * exists e1, l. rewrite Ha. repeat apply conj; auto. discriminate.
      * exists e1, (a :: l). rewrite Ha. repeat apply conj; auto. discriminate.
Qed.


(** ** The time limits of a run *)

Lemma budget_app (tr1 tr2 : history) : budget (tr1 ++ tr2) = budget tr1 + budget tr2.
Proof.
  unfold budget. induction tr1 as [| ev tr1 IH]; cbn; [reflexivity |].
  destruct ev; lia.
Qed.

Lemma frames_read_app (tr1 tr2 : history) :
  frames_read (tr1 ++ tr2) = frames_read tr1 + frames_read tr2.
Proof.
  unfold frames_read. induction tr1 as [| ev tr1 IH]; cbn [app fold_right]; [reflexivity |].
  destruct ev; lia.
Qed.

Lemma frames_read_nonneg (tr : history) : 0 <= frames_read tr.
Proof.
  unfold frames_read. induction tr as [| ev tr IH]; cbn [fold_right]; [lia |].
  destruct ev; lia.
Qed.

Lemma no_limit_outside_script (tr : history) :
  forallb (fun ev => negb (scripted ev)) tr = true ->
  budget tr = 0 /\ frames_read tr = 0.
Proof.
  unfold budget, frames_read.
  induction tr as [| ev tr IH]; cbn [forallb fold_right]; [auto |].
  intros H. apply andb_prop in H. destruct H as [Hev H].
  destruct (IH H) as [IH1 IH2].
  destruct ev as [[] |? |]; cbn in *; try discriminate; auto.
Qed.

Lemma teardown_not_scripted (td : history) :
  forallb (attempt_of is_teardown_call) td = true ->
  forallb (fun ev => negb (scripted ev)) td = true.
Proof.
  apply forallb_weaken. intros [[] |? |]; cbn; congruence.
Qed.

(** The waits of the loop of lines 41-45 have 3000 ms each. *)
Lemma frame_waits_budget (w : world) (fs : list frame) (s : st) :
  exists ext,
    trace (snd (for_each fs (fun f => wait_ready w (on_frame f)) s)) = trace s ++ ext /\
    budget ext <= 3000 * Z.of_nat (List.length fs) /\
    frames_read ext = 0.
Proof.
  revert s. induction fs as [| f fs IH]; intros s.
  - exists []. cbn. rewrite app_nil_r. repeat split; lia.
  - cbn [for_each]. unfold bind.
    unfold wait_ready at 1. unfold try_except_Error, do_call.
    destruct (raises w (trace s) _) as [e |].
    + destruct (is_async_api_Error e).
      * match goal with |- context [for_each fs _ ?s1] =>
          destruct (IH s1) as (ext & Ht & Hb & Hf) end.
        eexists (_ :: ext). rewrite Ht. cbn [log trace]. rewrite <- app_assoc.
        split; [reflexivity |]. unfold budget, frames_read in *.
        cbn [fold_right time_limit List.length]. split; lia.
      * eexists [_]. cbn [snd log trace]. split; [reflexivity |].
        unfold budget, frames_read. cbn [fold_right time_limit List.length]. split; lia.
    + match goal with |- context [for_each fs _ ?s1] =>
        destruct (IH s1) as (ext & Ht & Hb & Hf) end.
      eexists (_ :: ext). rewrite Ht. cbn [log trace]. rewrite <- app_assoc.
      split; [reflexivity |]. unfold budget, frames_read in *.
      cbn [fold_right time_limit List.length]. split; lia.
Qed.

(** Lines 32-45 have 10000 ms for the navigation, 3000 ms for the page
    and 3000 ms for each frame. *)
Lemma navigation_budget (w : world) (page0 : page) (s : st) :
  exists ext,
    trace (snd (navigation w page0 s)) = trace s ++ ext /\
    budget ext <= 13000 + 3000 * frames_read ext.
Proof.
  unfold navigation, bind, goto, do_call.
  destruct (raises w (trace s) _) as [e |].
  { eexists [_]. split; [reflexivity |]. vm_compute. discriminate. }
  cbn [fst snd]. unfold wait_ready at 1. unfold try_except_Error, do_call.
  set (s1 := log _ s).
  assert (Hcont : forall r0,
    exists ext,
      trace (snd (let (r, s3) := page_frames w page0
                                   (log (Called (ready_wait (on_page page0)) r0) s1) in
                  match r with
                  | Ret fs => for_each fs (fun f => wait_ready w (on_frame f)) s3
                  | Raise e => (Raise e, s3)
                  end)) =
        trace s ++ ext /\
      budget ext <= 13000 + 3000 * frames_read ext).
  { intros r0. unfold page_frames.
    set (s2 := log (Called (ready_wait (on_page page0)) r0) s1).
    set (fs := frames w (trace s2) page0).
    cbv beta iota zeta.
    destruct (frame_waits_budget w fs (log (ReadFrames page0 fs) s2))
      as (ext & Ht & Hb & Hf).
    exists (Called (c_goto page0 base_url (Some "commit") 10000) None ::
            Called (ready_wait (on_page page0)) r0 :: ReadFrames page0 fs :: ext).
    rewrite Ht. split.
    - subst s2 s1. cbn [log trace]. rewrite <- !app_assoc. reflexivity.
    - unfold budget, frames_read in *.
      cbn [fold_right time_limit ready_wait]. lia. }
  fold (ready_wait (on_page page0)).
  destruct (raises w (trace s1) (ready_wait (on_page page0))) as [e |].
  - destruct (is_async_api_Error e).
    + apply Hcont.
    + eexists [_; _]. subst s1. cbn [snd log trace]. rewrite <- app_assoc.
      split; [reflexivity |]. vm_compute. discriminate.
  - apply Hcont.
Qed.

Lemma perform_budget (w : world) (page0 : page) (a : action) (s : st) :
  exists ext,
    trace (snd (perform w page0 a s)) = trace s ++ ext /\
    budget ext <= action_limit a /\ frames_read ext = 0.
Proof.
  destruct a as [xpath | url t]; cbn [perform].
  - unfold interact, bind, context_pages_last, do_call. cbn.
    destruct (py_last (pages w (trace s))) as [p |]; cbn.
    + destruct (raises w _ (c_wait_for_timeout page0 3000)) as [e |]; cbn.
      * eexists [_; _]. rewrite <- app_assoc. split; [reflexivity |].
        split; [vm_compute; discriminate | reflexivity].
      * destruct (raises w _ (c_click _ 5000)) as [e |]; cbn;
          eexists [_; _; _]; rewrite <- !app_assoc; (split; [reflexivity |]);
          (split; [vm_compute; discriminate | reflexivity]).
    + eexists [_]. split; [reflexivity |].
      split; [vm_compute; discriminate | reflexivity].
  - unfold bind, goto, do_call, ret. cbn.
    destruct (raises w (trace s) (c_goto page0 url None t)); cbn;
      eexists [_]; (split; [reflexivity |]);
      (split; [unfold budget; cbn; lia | reflexivity]).
Qed.

Lemma steps_budget (w : world) (page0 : page) (l : list action) (s : st) :
  (forall a, In a l -> 0 <= action_limit a) ->
  exists ext,
    trace (snd (for_each l (perform w page0) s)) = trace s ++ ext /\
    budget ext <= actions_limit l /\ frames_read ext = 0.
Proof.
  revert s. induction l as [| a l IH]; intros s Hl.
  - exists []. cbn. rewrite app_nil_r. repeat split; lia.
  - assert (Hrest : 0 <= actions_limit l).
    { clear IH s. induction l as [| b l IHl]; cbn; [lia |].
      assert (0 <= action_limit b) by (apply Hl; right; now left).
      assert (0 <= actions_limit l) by (apply IHl; intros c Hc; apply Hl; destruct Hc; [now left | right; now right]).
      unfold actions_limit in *. lia. }
    cbn [for_each]. unfold bind.
    destruct (perform_budget w page0 a s) as (e1 & Ht1 & Hb1 & Hf1).
    destruct (perform w page0 a s) as [[[] | e] s1]; cbn [fst snd] in *.
    + destruct (IH s1) as (e2 & Ht2 & Hb2 & Hf2).
      { intros b Hb. apply Hl. now right. }
      exists (e1 ++ e2). rewrite Ht2, Ht1, app_assoc, budget_app, frames_read_app.
      split; [reflexivity |]. unfold actions_limit in *. cbn [fold_right]. split; lia.
    + exists e1. split; [exact Ht1 |].
      unfold actions_limit in *. cbn [fold_right]. split; lia.
Qed.

(** X9.  The time limits that a run passes to the driver (navigation,
    readiness waits, settling delays, clicks) add up to at most 95000 ms,
    and 3000 ms more for each frame of the page. *)
Theorem time_limits_are_bounded (w : world) :
  budget (run_trace w) <= 95000 + 3000 * frames_read (run_trace w).
Proof.
  destruct (run_parts w) as (acq & nav & stp & td & -> & Hacq & Hn & Hs & Htd).
  rewrite !budget_app, !frames_read_app.
  destruct (no_limit_outside_script acq Hacq) as [-> ->].
  destruct (no_limit_outside_script td (teardown_not_scripted td Htd)) as [-> ->].
  assert (H2 : budget nav <= 13000 + 3000 * frames_read nav /\ 0 <= frames_read nav).
  { split; [| apply frames_read_nonneg].
    destruct Hn as [-> | (p0 & s & Hn)]; [vm_compute; discriminate |].
    destruct (navigation_budget w p0 s) as (ext & Hext & Hb).
    rewrite Hn in Hext. apply app_inv_head in Hext. now subst ext. }
  assert (H3 : budget stp <= 82000 /\ frames_read stp = 0).
  { destruct Hs as [-> | (p0 & s & Hs)]; [split; [vm_compute; discriminate | reflexivity] |].
    destruct (steps_budget w p0 steps s) as (ext & Hext & Hb & Hf).
    - intros a Ha. cbn in Ha.
      repeat (destruct Ha as [<- | Ha]; [vm_compute; discriminate |]). elim Ha.
    - rewrite Hs in Hext. apply app_inv_head in Hext. subst ext. auto. }
  lia.
Qed.

(** ** A run in which nothing throws *)

Lemma stops_sequential : sequential stops.
Proof.
  split.
  - intros h. apply stops_returning. constructor.
  - intros h e1 e2 o H1 H2. inversion H1 as [h1 x1 Hx1 |]; subst.
    inversion H2 as [h2 x2 Hx2 | h2 pre ev e Hpre Hev]; subst.
    + apply stops_returning. apply Forall_app; auto.
    + rewrite app_assoc. apply stops_throwing; auto. apply Forall_app; auto.
Qed.

Lemma stops_call h c r :
  is_load_state_wait c = false -> stops h [Called c r] r.
Proof.
  intros Hc. destruct r as [e |].
  - apply (stops_throwing h [] (Called c (Some e)) e); [constructor |].
    destruct c; try reflexivity; discriminate.
  - apply stops_returning. repeat constructor. now destruct c.
Qed.

Lemma stops_wait h t state ms r :
  stops h [Called (c_wait_for_load_state t state ms) r] (swallowed r).
Proof.
  destruct r as [e |]; cbn.
  - destruct (is_async_api_Error e) eqn:He.
    + apply stops_returning. repeat constructor. unfold harmless. cbn. now rewrite He.
    + apply (stops_throwing h [] _ e); [constructor |]. cbn. now rewrite He.
  - apply stops_returning. repeat constructor.
Qed.

Lemma stops_pages h ps :
  stops h [ReadPages ps] (match py_last ps with Some _ => None | None => Some IndexError end).
Proof.
  destruct (py_last ps) eqn:Hps.
  - apply stops_returning. repeat constructor. unfold harmless. cbn. now rewrite Hps.
  - apply (stops_throwing h [] _ IndexError); [constructor |]. cbn. now rewrite Hps.
Qed.

Lemma navigation_stops (w : world) (page0 : page) : sat stops (navigation w page0).
Proof.
  pose proof stops_sequential as HS. unfold navigation.
  apply sat_bind; auto. { apply sat_goto. intros. now apply stops_call. }
  intros _. apply sat_bind; auto. { apply sat_wait_ready. intros. apply stops_wait. }
  intros _. apply sat_bind; auto.
  { apply sat_page_frames. intros. apply stops_returning. repeat constructor. }
  intros fs. apply sat_for_each; auto.
  intros f. apply sat_wait_ready. intros. apply stops_wait.
Qed.

Lemma steps_stop (w : world) (page0 : page) (l : list action) :
  sat stops (for_each l (perform w page0)).
Proof.
  pose proof stops_sequential as HS.
  apply sat_steps; auto.
  - intros. apply sat_goto. intros. now apply stops_call.
  - intros. unfold interact.
    apply sat_bind; auto. { apply sat_pages_last. intros. apply stops_pages. }
    intros frame. apply sat_bind; auto; intros; apply sat_do_call; intros; now apply stops_call.
Qed.

Lemma navigation_scripted (w : world) (page0 : page) :
  sat (only scripted) (navigation w page0).
Proof.
  pose proof (only_sequential scripted) as HS. unfold navigation. only_pieces.
Qed.

(** A piece of the script that raises does so on an event that throws. *)
Lemma raise_shows_in_trace (tr ext : history) (o : option exn) :
  stops tr ext o ->
  forallb scripted ext = true ->
  nothing_thrown ext = true ->
  o = None.
Proof.
  intros Hs Hsc Hn. destruct Hs as [| h pre ev e Hpre Hev]; [reflexivity |].
  exfalso. unfold nothing_thrown in Hn. rewrite forallb_app in Hn, Hsc.
  apply andb_prop in Hn, Hsc. destruct Hn as [_ Hn], Hsc as [_ Hsc].
  cbn in Hn, Hsc. rewrite Hev, !andb_true_r, orb_false_r in *.
  apply scripted_not_teardown in Hsc. rewrite Hn in Hsc. discriminate.
Qed.

Lemma nothing_thrown_app (tr1 tr2 : history) :
  nothing_thrown (tr1 ++ tr2) = true ->
  nothing_thrown tr1 = true /\ nothing_thrown tr2 = true.
Proof. unfold nothing_thrown. rewrite forallb_app. apply andb_prop. Qed.

Lemma no_attempt_in_teardown (td : history) :
  forallb (attempt_of is_teardown_call) td = true ->
  attempts td = [] /\ clicks_returned td = 0%nat.
Proof.
  intros H. split.
  - apply attempts_none. revert H. apply forallb_weaken.
    intros [[] |? |]; cbn; congruence.
  - revert H. apply no_click_returned. intros [c [e |] | |]; cbn; try reflexivity.
    destruct c; cbn; congruence.
Qed.

Lemma no_attempt_in_navigation (w : world) (page0 : page) (s : st) (ext : history) :
  trace (snd (navigation w page0 s)) = trace s ++ ext ->
  attempts ext = [] /\ clicks_returned ext = 0%nat.
Proof.
  intros H.
  pose proof (only_sequential
    (fun ev => match attempted ev with None => true | Some _ => false end)) as HS.
  assert (Hsat : sat (only (fun ev => match attempted ev with
                                      | None => true | Some _ => false end))
                     (navigation w page0)).
  { unfold navigation. only_pieces. }
  destruct (Hsat s) as (ext' & Hext & _ & Hall).
  rewrite H in Hext. apply app_inv_head in Hext. subst ext'. split.
  - now apply attempts_none.
  - revert Hall. apply no_click_returned.
    intros [[] [e |] | |]; cbn; congruence.
Qed.

(** X10.  In a run in which nothing throws before the [finally] block,
    the script does all it has to do: the ten actions of lines 49-100 are
    attempted once each and in order, and the nine clicks return. *)
Theorem quiet_run_performs_every_action (w : world) :
  nothing_thrown (run_trace w) = true ->
  attempts (run_trace w) = steps /\ clicks_returned (run_trace w) = 9%nat.
Proof.
  intros Hn.
  destruct (run_anatomy w) as (td & Ht & _ & Htd).
  destruct (no_attempt_in_teardown td (torn_calls _ _ _ _ Htd)) as [Ha4 Hc4].
  rewrite Ht in Hn |- *. rewrite attempts_app, clicks_returned_app, Ha4, Hc4, app_nil_r.
  apply nothing_thrown_app in Hn. destruct Hn as [Hn _].
  pose proof (body_cases w) as Hcase.
  remember (body w init) as b eqn:Hb.
  destruct Hcase as [e ? | e ? | e ? | e ? | e ? | ?]; try discriminate Hn.
  fold script_start in *. clear Hb.
  rewrite script_phases in *. unfold bind in *.
  destruct (navigation_stops w (initial_page w) script_start) as (e1 & Ht1 & _ & Hs1).
  destruct (navigation_scripted w (initial_page w) script_start) as (e1' & Ht1' & _ & Hsc1).
  rewrite Ht1 in Ht1'. apply app_inv_head in Ht1'. subst e1'.
  destruct (no_attempt_in_navigation w _ _ _ Ht1) as [Ha2 Hc2].
  destruct (navigation w (initial_page w) script_start) as [[[] | e] s1];
    cbn [fst snd raised] in *.
  - rewrite after_ready_trace in *.
    destruct (steps_stop w (initial_page w) steps s1) as (e2 & Ht2 & _ & Hs2).
    destruct (steps_scripted w (initial_page w) steps s1) as (e2' & Ht2' & _ & Hsc2).
    rewrite Ht2 in Ht2'. apply app_inv_head in Ht2'. subst e2'.
    destruct (steps_attempts w (initial_page w) steps s1) as (e3 & rest & Ht3 & Hl & Hr).
    rewrite Ht2 in Ht3. apply app_inv_head in Ht3. subst e3.
    destruct (steps_count w (initial_page w) steps s1) as (e4 & Ht4 & Hc).
    rewrite Ht2 in Ht4. apply app_inv_head in Ht4. subst e4.
    rewrite Ht2, Ht1 in Hn |- *.
    apply nothing_thrown_app in Hn. destruct Hn as [Hn Hn2].
    apply nothing_thrown_app in Hn. destruct Hn as [_ Hn1].
    pose proof (raise_shows_in_trace _ _ _ Hs2 Hsc2 Hn2) as Hret.
    rewrite (Hr Hret), app_nil_r in Hl.
    rewrite !attempts_app, !clicks_returned_app, Ha2, Hc2, <- Hl.
    destruct (fst (for_each steps (perform w (initial_page w)) s1)); [| discriminate Hret].
    rewrite Hc. split; reflexivity.
  - exfalso. rewrite Ht1 in Hn.
    apply nothing_thrown_app in Hn. destruct Hn as [_ Hn1].
    pose proof (raise_shows_in_trace _ _ _ Hs1 Hsc1 Hn1). discriminate.
Qed.

Lemma quiet_run_performs_every_action_witness :
  nothing_thrown (run_trace slow_page) = true /\
  attempts (run_trace slow_page) = steps /\
  clicks_returned (run_trace slow_page) = 9%nat.
Proof.
  split; [reflexivity |].
  apply (quiet_run_performs_every_action slow_page eq_refl).
Defined.
